(** * kuyruk: the Master supervisor (kuyruk/master.py)

    A shallow embedding of [kuyruk.master]: the queue-string parser
    ([parse_queues_str], [parse_count], [parse_local]) and the [Master]
    process (worker pool, monitor loop, signal handlers, reload, command
    dispatch of the manager link), followed by the properties of the design
    document that are stated about them.

    Strings are Python 2 byte strings ([string], one [ascii] per byte).
    Exceptions are values of [exn]; a computation that raises returns
    [Raise e] and keeps the mutations it made before raising. Logging,
    printing and sleeping are left out. *)

From Stdlib Require Import ZArith Lia Ascii DecimalString DecimalNat.
From stdpp Require Import base strings list gmap.

Local Open Scope Z_scope.

(** ** Exceptions and results *)

Inductive exn : Type :=
  | ValueError                      (* int() of a bad literal, list.remove(x) of an absent x *)
  | OverflowError                   (* a repetition count that fits no index-sized integer *)
  | MemoryError                     (* a list too long to be allocated *)
  | OSError (errno : Z)             (* os.kill / os.killpg *)
  | AttributeError (name : string)  (* getattr on a missing name *)
  | TypeError                       (* calling a non-callable, wrong arity *)
  | SocketError.                    (* socket.error *)

Inductive result (A : Type) : Type :=
  | Ok (a : A)
  | Raise (e : exn).
Arguments Ok {A} a.
Arguments Raise {A} e.

(** ** Limits of the platform

    [ssize_max] is the largest index-sized integer of the interpreter
    (PY_SSIZE_T_MAX, [sys.maxsize]: [2^63 - 1] on a 64-bit build). [list_max]
    is the length of the longest list that a repetition [n * [x]] can
    allocate where the program runs. Every other allocation is taken to
    succeed. *)
Record Platform : Type := mkPlatform {
  ssize_max : Z;
  list_max : Z
}.

(** ** Python string primitives used by the parser *)

Module PyStr.

(** [str.isspace] on one byte (C locale): tab, LF, VT, FF, CR, space. *)
Definition is_space (c : ascii) : bool := Ascii.is_space c.

Fixpoint lstrip (s : string) : string :=
  match s with
  | EmptyString => EmptyString
  | String c s' => if is_space c then lstrip s' else s
  end.

Fixpoint rstrip (s : string) : string :=
  match s with
  | EmptyString => EmptyString
  | String c s' =>
      match rstrip s' with
      | EmptyString => if is_space c then EmptyString else String c EmptyString
      | r => String c r
      end
  end.

(** [s.strip()] *)
Definition strip (s : string) : string := rstrip (lstrip s).

(** [s.split(sep)] for a one-character separator: never returns []. *)
Fixpoint split (sep : ascii) (s : string) : list string :=
  match s with
  | EmptyString => [EmptyString]
  | String c s' =>
      if decide (c = sep) then EmptyString :: split sep s'
      else match split sep s' with
           | h :: t => String c h :: t
           | [] => [String c EmptyString]
           end
  end.

(** [s.split(sep, 1)]: one or two parts. *)
Fixpoint split_once (sep : ascii) (s : string) : list string :=
  match s with
  | EmptyString => [EmptyString]
  | String c s' =>
      if decide (c = sep) then [EmptyString; s']
      else match split_once sep s' with
           | h :: t => String c h :: t
           | [] => [String c EmptyString]
           end
  end.

(** [sep.join(l)] *)
Fixpoint join (sep : string) (l : list string) : string :=
  match l with
  | [] => EmptyString
  | [x] => x
  | x :: l' => x +:+ sep +:+ join sep l'
  end.

Definition digit (c : ascii) : option Z := Z.of_nat <$> Ascii.is_nat c.

Fixpoint digits (acc : Z) (s : string) : option Z :=
  match s with
  | EmptyString => Some acc
  | String c s' =>
      match digit c with
      | Some d => digits (10 * acc + d) s'
      | None => None
      end
  end.

(** At least one decimal digit and nothing else. *)
Definition unsigned (ds : string) : option Z :=
  match ds with
  | EmptyString => None
  | _ => digits 0 ds
  end.

(** [int(s)] in base 10, as Python 2 reads a byte string: blanks are
    skipped, then an optional sign, then blanks again, then at least one
    decimal digit, then blanks up to the end of the string. The value has
    no bound (a literal beyond the machine word gives a long). [None] is
    ValueError. *)
Definition int (s : string) : option Z :=
  match lstrip s with
  | EmptyString => None
  | String c ds =>
      if decide (c = "-"%char) then Z.opp <$> unsigned (strip ds)
      else if decide (c = "+"%char) then unsigned (strip ds)
      else unsigned (rstrip (String c ds))
  end.

(** [n * [x]]. The count is first converted to an index-sized integer
    (OverflowError when it does not fit); a count that is not positive then
    gives the empty list; a list of [n] elements is allocated otherwise
    (MemoryError when it cannot be). *)
Definition repeat_list {A} (pf : Platform) (n : Z) (x : A) : result (list A) :=
  if (n <? - ssize_max pf - 1) || (ssize_max pf <? n) then Raise OverflowError
  else if n <=? 0 then Ok []
  else if list_max pf <? n then Raise MemoryError
  else Ok (replicate (Z.to_nat n) x).

End PyStr.

(** ** The queue-string parser *)

(** [parse_count(q)]; [parts] has one or two elements. *)
Definition parse_count (pf : Platform) (q : string) : result (list string) :=
  match PyStr.split_once "*"%char q with
  | p0 :: p1 :: _ =>
      match PyStr.int p0 with
      | Some n => PyStr.repeat_list pf n p1
      | None => Raise ValueError
      end
  | p0 :: [] => Ok [p0]
  | [] => Raise ValueError
  end.

(** [parse_local(q)]; [hostname] is what [socket.gethostname()] returns. *)
Definition parse_local (hostname : string) (q : string) : string :=
  match q with
  | String "@"%char q' => q' +:+ "_" +:+ hostname
  | _ => q
  end.

(** The generator pipeline of [parse_queues_str] visits the tokens from left
    to right; the first token whose [parse_count] raises aborts the call. *)
Fixpoint chain_counts (pf : Platform) (qs : list string) : result (list string) :=
  match qs with
  | [] => Ok []
  | q :: qs' =>
      match parse_count pf q with
      | Raise e => Raise e
      | Ok l =>
          match chain_counts pf qs' with
          | Raise e => Raise e
          | Ok ls => Ok (l ++ ls)
          end
      end
  end.

(** [parse_queues_str(s)] *)
Definition parse_queues_str (pf : Platform) (hostname : string) (s : string)
  : result (list string) :=
  let queues := map PyStr.strip (PyStr.split ","%char s) in
  match chain_counts pf queues with
  | Raise e => Raise e
  | Ok queues => Ok (map (parse_local hostname) queues)
  end.


(** ** Workers, configuration, Master state *)

Inductive signal : Type := SIGTERM | SIGKILL.

(** A started [Worker(queue, config)] process object. [obj] is the identity
    of the Python object ([list.remove] compares [Process] objects by
    identity), [pid] the process id it got from the operating system. *)
Record Worker : Type := mkWorker {
  obj : nat;
  queue_name : string;
  pid : Z
}.

Global Instance Worker_eq_dec : EqDecision Worker.
Proof. solve_decision. Defined.

(** The configuration object (kuyruk.config, used here through its
    attributes only). [path] is present when the configuration was loaded
    from a file: [hasattr(self.config, 'path')]. *)
Record Config : Type := mkConfig {
  WORKERS : gmap string string;
  path : option string;
  MAX_LOAD : option Z;
  MANAGER_HOST : string;
  MANAGER_PORT : Z
}.

(** The attributes of a [Master] instance. *)
Record Master : Type := mkMaster {
  config : Config;
  workers : list Worker;
  shutdown_pending : bool;
  override_queues : option string;
  started : option Z
}.

(** [Master.__init__(config)] *)
Definition Master_init (c : Config) : Master :=
  {| config := c; workers := []; shutdown_pending := false;
     override_queues := None; started := None |}.

(** What the Master does to the outside, in order. A call is recorded when
    it is made, whether or not it then raises. *)
Inductive event : Type :=
  | EStart (w : Worker)                 (* Worker(queue, config).start() *)
  | EKill (p : Z) (sig : signal)        (* os.kill(p, sig) *)
  | EKillpg (p : Z) (sig : signal)      (* os.killpg(p, sig) *)
  | EConfigReload.                      (* config.reload() *)

(** The Master object together with the processes it has created so far
    ([spawned] counts them and names the next object) and the trace of its
    calls. *)
Record World : Type := mkWorld {
  master : Master;
  spawned : nat;
  trace : list event
}.

(** ** Computations that read and write the Master and may raise *)

Definition M (A : Type) : Type := World -> result A * World.

Definition ret {A} (a : A) : M A := fun w => (Ok a, w).

Definition bind {A B} (m : M A) (f : A -> M B) : M B :=
  fun w => match m w with
           | (Ok a, w') => f a w'
           | (Raise e, w') => (Raise e, w')
           end.

Definition raise {A} (e : exn) : M A := fun w => (Raise e, w).

Declare Scope M_scope.
Delimit Scope M_scope with M.
Notation "x <- m ;; k" := (bind m (fun x => k))
  (at level 100, m at next level, k at level 200, right associativity, only parsing)
  : M_scope.
Notation "m ;; k" := (bind m (fun _ => k))
  (at level 100, k at level 200, right associativity, only parsing) : M_scope.
Local Open Scope M_scope.

Definition get_master : M Master := fun w => (Ok (master w), w).

Definition modify_master (f : Master -> Master) : M unit :=
  fun w => (Ok tt, {| master := f (master w); spawned := spawned w; trace := trace w |}).

Definition emit (e : event) : M unit :=
  fun w => (Ok tt, {| master := master w; spawned := spawned w; trace := trace w ++ [e] |}).

Definition lift_result {A} (r : result A) : M A := fun w => (r, w).

(** [for x in l: body(x)] *)
Fixpoint for_each {A} (l : list A) (body : A -> M unit) : M unit :=
  match l with
  | [] => ret tt
  | x :: l' => body x ;; for_each l' body
  end.

Definition set_workers (ws : list Worker) (m : Master) : Master :=
  {| config := config m; workers := ws; shutdown_pending := shutdown_pending m;
     override_queues := override_queues m; started := started m |}.

Definition set_shutdown_pending (b : bool) (m : Master) : Master :=
  {| config := config m; workers := workers m; shutdown_pending := b;
     override_queues := override_queues m; started := started m |}.

Definition set_config (c : Config) (m : Master) : Master :=
  {| config := c; workers := workers m; shutdown_pending := shutdown_pending m;
     override_queues := override_queues m; started := started m |}.

(** [l.remove(x)]: drops the first occurrence, ValueError when there is none. *)
Fixpoint list_remove (x : Worker) (l : list Worker) : option (list Worker) :=
  match l with
  | [] => None
  | y :: l' => if decide (y = x) then Some l'
               else match list_remove x l' with
                    | Some r => Some (y :: r)
                    | None => None
                    end
  end.

(** [self.workers.append(worker)] *)
Definition workers_append (worker : Worker) : M unit :=
  modify_master (fun m => set_workers (workers m ++ [worker]) m).

(** [self.workers.remove(worker)] *)
Definition workers_remove (worker : Worker) : M unit :=
  m <- get_master ;;
  match list_remove worker (workers m) with
  | Some l => modify_master (set_workers l)
  | None => raise ValueError
  end.

(** Values that arrive in a control-plane message or as handler arguments. *)
Inductive pyval : Type :=
  | VNone
  | VBool (b : bool)
  | VInt (z : Z)
  | VStr (s : string).

Global Instance pyval_eq_dec : EqDecision pyval.
Proof. solve_decision. Defined.

(** Truth value of [v] in a condition. *)
Definition truthy (v : pyval) : bool :=
  match v with
  | VNone => false
  | VBool b => b
  | VInt z => negb (z =? 0)
  | VStr s => negb (bool_decide (s = ""))
  end.

(** What [getattr(self, name)] finds. *)
Inductive attr : Type :=
  | Callable (call : list pyval -> list (string * pyval) -> M unit)
  | Data.     (* a value that cannot be called *)

(** ** The outside world

    What the Master observes from its environment during one pass of its
    loop or one handler: the host name, whether stdin is a terminal, which
    workers are alive, what the signalling system calls answer ([None]: the
    call succeeds; [Some n]: it raises OSError with errno [n]), the pid given
    to the n-th started process (starting a process is taken to succeed),
    what [config.reload()] makes of the configuration, and the limits of the
    platform.

    The last two fields serve the command dispatch only. [inherited] is the
    attribute that a name denotes on [multiprocessing.Process] and its
    bases, if any. [unembedded] is what calling one of the Master methods
    that have no embedding of their own here does ([run],
    [_wait_for_workers], [_register_signals], [_send_status]). *)
Record Env : Type := mkEnv {
  hostname : string;
  isatty : bool;
  is_alive : Worker -> bool;
  os_kill : Z -> signal -> option Z;
  os_killpg : Z -> signal -> option Z;
  fork : nat -> Z;
  config_reload : Config -> Config;
  platform : Platform;
  inherited : string -> option attr;
  unembedded : string -> list pyval -> list (string * pyval) -> M unit
}.

Definition ESRCH : Z := 3.

Section MasterMethods.

Variable env : Env.

(** [os.kill(p, sig)] *)
Definition kill (p : Z) (sig : signal) : M unit :=
  emit (EKill p sig) ;;
  match os_kill env p sig with
  | None => ret tt
  | Some errno => raise (OSError errno)
  end.

(** [os.killpg(p, sig)] *)
Definition killpg (p : Z) (sig : signal) : M unit :=
  emit (EKillpg p sig) ;;
  match os_killpg env p sig with
  | None => ret tt
  | Some errno => raise (OSError errno)
  end.

(** [w = Worker(queue, self.config); w.start()] *)
Definition start_worker (queue : string) : M Worker :=
  fun w =>
    let n := spawned w in
    let worker := {| obj := n; queue_name := queue; pid := fork env n |} in
    (Ok worker,
     {| master := master w; spawned := S n; trace := trace w ++ [EStart worker] |}).

(** [Master._get_queues]; an empty [override_queues] is falsy. *)
Definition _get_queues : M string :=
  m <- get_master ;;
  match override_queues m with
  | Some (String c s) => ret (String c s)
  | _ =>
      match WORKERS (config m) !! hostname env with
      | Some qs => ret qs
      | None => ret "kuyruk"
      end
  end.

(** [Master._start_workers] *)
Definition _start_workers : M unit :=
  queues <- _get_queues ;;
  queues <- lift_result (parse_queues_str (platform env) (hostname env) queues) ;;
  for_each queues (fun queue =>
    worker <- start_worker queue ;;
    workers_append worker).

(** [Master.stop_workers(workers=None, kill=False)] *)
Definition stop_workers (ws : option (list Worker)) (kill_flag : bool) : M unit :=
  m <- get_master ;;
  let ws := match ws with None => workers m | Some l => l end in
  for_each ws (fun worker =>
    kill (pid worker) (if kill_flag then SIGKILL else SIGTERM)).

(** [Master._kill_pg(worker)] *)
Definition _kill_pg (worker : Worker) : M unit :=
  fun w =>
    match killpg (pid worker) SIGKILL w with
    | (Raise (OSError errno), w') =>
        if decide (errno <> 3) then (Raise (OSError errno), w') else (Ok tt, w')
    | r => r
    end.

(** [Master._spawn_new_worker(worker)] *)
Definition _spawn_new_worker (worker : Worker) : M unit :=
  new_worker <- start_worker (queue_name worker) ;;
  workers_append new_worker ;;
  workers_remove worker.

(** The [for worker in list(self.workers)] loop of
    [Master._wait_for_workers], over the copy [snapshot]; returns
    [any_alive]. *)
Fixpoint monitor_pass (snapshot : list Worker) (any_alive : bool) : M bool :=
  match snapshot with
  | [] => ret any_alive
  | worker :: rest =>
      if is_alive env worker then monitor_pass rest true
      else
        m <- get_master ;;
        if negb (shutdown_pending m) then
          _kill_pg worker ;;
          _spawn_new_worker worker ;;
          monitor_pass rest true
        else
          workers_remove worker ;;
          monitor_pass rest any_alive
  end.

(** One iteration of the [while any_alive] loop, up to its [sleep(1)]. *)
Definition monitor_tick : M bool :=
  m <- get_master ;;
  monitor_pass (workers m) false.

(** [Master._handle_sigterm(signum, frame)] *)
Definition _handle_sigterm (signum frame : pyval) : M unit :=
  modify_master (set_shutdown_pending true) ;;
  stop_workers None false.

(** [Master._handle_sigquit(signum, frame)] *)
Definition _handle_sigquit (signum frame : pyval) : M unit :=
  modify_master (set_shutdown_pending true) ;;
  stop_workers None true.

(** [Master._handle_sigint(signum, frame)] *)
Definition _handle_sigint (signum frame : pyval) : M unit :=
  m <- get_master ;;
  if isatty env && negb (shutdown_pending m)
  then _handle_sigterm VNone VNone
  else _handle_sigquit VNone VNone.

(** [Master.reload()]. [old_workers] names the list object that
    [self.workers] named on entry; the reloadable branch rebinds
    [self.workers] to a new list and leaves that object as it was. *)
Definition reload : M unit :=
  m <- get_master ;;
  let old_workers := workers m in
  match path (config m) with
  | Some _ =>
      emit EConfigReload ;;
      modify_master (fun m => set_config (config_reload env (config m)) m) ;;
      modify_master (set_workers []) ;;
      _start_workers
  | None => ret tt
  end ;;
  stop_workers (Some old_workers) false.

(** [Master._handle_sighup(signum, frame)] *)
Definition _handle_sighup (signum frame : pyval) : M unit := reload.

End MasterMethods.

(** [_wait_for_workers]: the [while any_alive] loop. [env_at n] is the
    outside world during the n-th pass; [None] when the loop is still
    running after [fuel] passes. *)
Fixpoint _wait_for_workers (env_at : nat -> Env) (fuel : nat) (pass : nat) (w : World)
  : option (result unit * World) :=
  match fuel with
  | O => None
  | S fuel' =>
      match monitor_tick (env_at pass) w with
      | (Raise e, w') => Some (Raise e, w')
      | (Ok true, w') => _wait_for_workers env_at fuel' (S pass) w'
      | (Ok false, w') => Some (Ok tt, w')
      end
  end.

(** ** Command dispatch of the manager link ([Master._send_status]) *)

(** Binding the positional and keyword arguments of a call to the parameters of [f] (name and default,
    [self] left out): the values of the parameters in order, or [None] for the
    TypeError of a wrong call. *)
Fixpoint bind_args (params : list (string * option pyval)) (args : list pyval)
    (kwargs : gmap string pyval) : option (list pyval) :=
  match params with
  | [] =>
      match args with
      | [] => if decide (kwargs = ∅) then Some [] else None
      | _ :: _ => None
      end
  | (name, default) :: params' =>
      match args with
      | a :: args' =>
          match kwargs !! name with
          | Some _ => None
          | None => cons a <$> bind_args params' args' kwargs
          end
      | [] =>
          match kwargs !! name, default with
          | Some v, _ => cons v <$> bind_args params' [] (delete name kwargs)
          | None, Some d => cons d <$> bind_args params' [] kwargs
          | None, None => None
          end
      end
  end.

Section Dispatch.

Variable env : Env.

Definition kwargs_map (kwargs : list (string * pyval)) : gmap string pyval :=
  list_to_map kwargs.

(** A method of no parameter besides [self]. *)
Definition call0 (body : M unit) (args : list pyval) (kwargs : list (string * pyval)) : M unit :=
  match bind_args [] args (kwargs_map kwargs) with
  | Some _ => body
  | None => raise TypeError
  end.

(** A signal handler: [(self, signum, frame)]. *)
Definition call_handler (body : pyval -> pyval -> M unit)
    (args : list pyval) (kwargs : list (string * pyval)) : M unit :=
  match bind_args [("signum", None); ("frame", None)] args (kwargs_map kwargs) with
  | Some [signum; frame] => body signum frame
  | _ => raise TypeError
  end.

(** [stop_workers(workers=None, kill=False)] on values from a message:
    [for worker in workers] over a value that is no list of workers. *)
Definition call_stop_workers (args : list pyval) (kwargs : list (string * pyval)) : M unit :=
  match bind_args [("workers", Some VNone); ("kill", Some (VBool false))]
                  args (kwargs_map kwargs) with
  | Some [ws; k] =>
      match ws with
      | VNone => stop_workers env None (truthy k)
      | VStr EmptyString => ret tt
      | VStr (String _ _) => raise (AttributeError "pid")
      | VBool _ | VInt _ => raise TypeError
      end
  | _ => raise TypeError
  end.

(** A method of one parameter [worker] that reads [worker.<field>] first. *)
Definition call_on_worker (field : string)
    (args : list pyval) (kwargs : list (string * pyval)) : M unit :=
  match bind_args [("worker", None)] args (kwargs_map kwargs) with
  | Some _ => raise (AttributeError field)
  | None => raise TypeError
  end.

(** [getattr(self, name)] on a running Master: the methods of the class,
    the instance attributes and the [uptime] property, and what the class
    inherits. There is no other table of commands. *)
Definition getattr_Master (name : string) : option attr :=
  if decide (name = "reload") then Some (Callable (call0 (reload env)))
  else if decide (name = "stop_workers") then Some (Callable call_stop_workers)
  else if decide (name = "_handle_sigterm") then Some (Callable (call_handler (_handle_sigterm env)))
  else if decide (name = "_handle_sigquit") then Some (Callable (call_handler (_handle_sigquit env)))
  else if decide (name = "_handle_sigint") then Some (Callable (call_handler (_handle_sigint env)))
  else if decide (name = "_handle_sighup") then Some (Callable (call_handler (_handle_sighup env)))
  else if decide (name = "_start_workers") then Some (Callable (call0 (_start_workers env)))
  else if decide (name = "_get_queues") then Some (Callable (call0 (_get_queues env ;; ret tt)))
  else if decide (name = "_kill_pg") then Some (Callable (call_on_worker "pid"))
  else if decide (name = "_spawn_new_worker") then Some (Callable (call_on_worker "queue_name"))
  else if decide (name ∈ ["config"; "workers"; "shutdown_pending"; "override_queues";
                          "started"; "uptime"]) then Some Data
  else if decide (name ∈ ["run"; "_wait_for_workers"; "_register_signals";
                          "_send_status"]) then Some (Callable (unembedded env name))
  else inherited env name.

(** [f = getattr(self, f)] and the call of [f] with [args] and [kwargs] *)
Definition dispatch (f : string) (args : list pyval) (kwargs : list (string * pyval)) : M unit :=
  match getattr_Master f with
  | None => raise (AttributeError f)
  | Some Data => raise TypeError
  | Some (Callable call) => call args kwargs
  end.

(** What [receive_message(sock)] gave: socket.error (nothing to read on the
    non-blocking socket), or a command. *)
Inductive received : Type :=
  | NoMessage
  | Message (f : string) (args : list pyval) (kwargs : list (string * pyval)).

(** The body of the inner [while] of [_send_status], up to its [sleep(1)]:
    [send_ok] tells whether [send_message] went through. *)
Definition link_exchange (send_ok : bool) (r : received) : M unit :=
  if send_ok then
    match r with
    | NoMessage => ret tt
    | Message f args kwargs => dispatch f args kwargs
    end
  else raise SocketError.

(** Where the link is after that body, through the
    [try ... except socket.error ... finally] around the inner loop. *)
Inductive link_state : Type :=
  | Connected             (* the inner loop goes on *)
  | Reconnect             (* socket.error caught: close, sleep, connect again *)
  | Died (e : exn).       (* the exception leaves _send_status: its thread ends *)

Definition link_iteration (send_ok : bool) (r : received) (w : World) : link_state * World :=
  match link_exchange send_ok r w with
  | (Ok _, w') => (Connected, w')
  | (Raise SocketError, w') => (Reconnect, w')
  | (Raise e, w') => (Died e, w')
  end.

End Dispatch.

(** ** The grammar of queue specifications, as the design document gives it

    A specification is a comma-separated list of tokens [[<N>*]<name>], the
    name possibly prefixed with [@]; blanks may surround a token. These
    definitions follow the document, not the code: the parser is compared
    with them below. *)

Fixpoint all_chars (P : ascii -> bool) (s : string) : bool :=
  match s with
  | EmptyString => true
  | String c s' => P c && all_chars P s'
  end.

Definition starts_nonspace (s : string) : bool :=
  match s with
  | String c _ => negb (PyStr.is_space c)
  | EmptyString => true
  end.

Fixpoint ends_nonspace (s : string) : bool :=
  match s with
  | EmptyString => true
  | String c EmptyString => negb (PyStr.is_space c)
  | String _ s' => ends_nonspace s'
  end.

Definition starts_with_at (s : string) : bool :=
  match s with
  | String "@"%char _ => true
  | _ => false
  end.

(** [c] is not the separator [sep]. *)
Definition differs (sep : ascii) (c : ascii) : bool := negb (bool_decide (c = sep)).

Definition name_char (c : ascii) : bool := differs "," c && differs "*" c.

Fixpoint any_char (P : ascii -> bool) (s : string) : bool :=
  match s with
  | EmptyString => false
  | String c s' => P c || any_char P s'
  end.

(** A character that can occur in an integer literal with blanks around
    it: a decimal digit, a sign, a blank. *)
Definition numeral_char (c : ascii) : bool :=
  match Ascii.is_nat c with Some _ => true | None => false end
  || PyStr.is_space c || bool_decide (c = "-"%char) || bool_decide (c = "+"%char).

(** A plain queue name: no comma, no [*], no leading [@], no surrounding
    whitespace. *)
Definition plain_name (s : string) : bool :=
  all_chars name_char s && negb (starts_with_at s)
  && starts_nonspace s && ends_nonspace s.

(** The decimal numeral of [n]. *)
Definition decimal (n : nat) : string := NilEmpty.string_of_uint (Nat.to_uint n).

Record token : Type := mkToken {
  lpad : string;            (* blanks before the token *)
  multiplier : option nat;  (* N of [N*], when present *)
  scoped : bool;            (* whether the name is prefixed with [@] *)
  name : string;
  rpad : string             (* blanks after the token *)
}.

Definition well_formed (t : token) : Prop :=
  all_chars PyStr.is_space (lpad t) = true /\
  all_chars PyStr.is_space (rpad t) = true /\
  plain_name (name t) = true.

(** The token as it is written in a specification string. *)
Definition render (t : token) : string :=
  lpad t
  +:+ match multiplier t with Some n => decimal n +:+ "*" | None => "" end
  +:+ (if scoped t then "@" else "") +:+ name t
  +:+ rpad t.

(** The queue names a token stands for on host [h]. *)
Definition expansion (h : string) (t : token) : list string :=
  replicate (match multiplier t with Some n => n | None => 1%nat end)
            (if scoped t then name t +:+ "_" +:+ h else name t).

(** The token without the blanks around it. *)
Definition core (t : token) : string :=
  match multiplier t with Some n => decimal n +:+ "*" | None => "" end
  +:+ (if scoped t then "@" else "") +:+ name t.

(** A token of one plain name and nothing else. *)
Definition plain_token (s : string) : token :=
  {| lpad := ""; multiplier := None; scoped := false; name := s; rpad := "" |}.

(** ** Vocabulary of the supervision properties *)

(** The workers of [ws] that [is_alive()] reports alive, and the others. *)
Definition living (env : Env) (ws : list Worker) : list Worker :=
  filter (fun x => is_alive env x = true) ws.

Definition dead (env : Env) (ws : list Worker) : list Worker :=
  filter (fun x => is_alive env x = false) ws.

(** The worker objects that starting one process per queue name of [qs]
    creates, when [n] processes were started before. *)
Fixpoint started_workers (env : Env) (n : nat) (qs : list string) : list Worker :=
  match qs with
  | [] => []
  | q :: qs' =>
      {| obj := n; queue_name := q; pid := fork env n |} :: started_workers env (S n) qs'
  end.

(** The replacements of the workers [ds], one for one. *)
Definition replacements (env : Env) (n : nat) (ds : list Worker) : list Worker :=
  started_workers env n (map queue_name ds).

(** For each dead worker in turn: the kill of its process group, then the
    start of its replacement. *)
Fixpoint respawn_events (ds news : list Worker) : list event :=
  match ds, news with
  | d :: ds', x :: news' => EKillpg (pid d) SIGKILL :: EStart x :: respawn_events ds' news'
  | _, _ => []
  end.

(** One [os.kill(pid, sig)] per worker of [ws], in order. *)
Definition kill_events (sig : signal) (ws : list Worker) : list event :=
  map (fun x => EKill (pid x) sig) ws.

(** [os.kill] succeeds on each worker of [ws]. *)
Definition kills_succeed (env : Env) (sig : signal) (ws : list Worker) : Prop :=
  Forall (fun x => os_kill env (pid x) sig = None) ws.

(** [os.killpg] on the dead workers of [ws] succeeds or fails with
    "no such process". *)
Definition killpg_not_fatal (env : Env) (ws : list Worker) : Prop :=
  Forall (fun x => is_alive env x = false ->
                   os_killpg env (pid x) SIGKILL = None \/
                   os_killpg env (pid x) SIGKILL = Some ESRCH) ws.

(** The world after the Master made the calls [evs], with the Master [m]
    and [k] more processes started. *)
Definition after (w : World) (m : Master) (k : nat) (evs : list event) : World :=
  {| master := m; spawned := (spawned w + k)%nat; trace := trace w ++ evs |}.

(** The queues string that [m] resolves to on this host: the override when
    there is one, else the entry of the host in [WORKERS], else "kuyruk". *)
Definition resolved_queues (env : Env) (m : Master) : string :=
  match override_queues m with
  | Some (String c s) => String c s
  | _ => default "kuyruk" (WORKERS (config m) !! hostname env)
  end.

(** ** Sample inputs *)

(** A 64-bit interpreter that can allocate lists of up to a million
    elements. *)
Definition sample_platform : Platform :=
  {| ssize_max := 2 ^ 63 - 1; list_max := 1000000 |}.

(** The public attributes of [multiprocessing.Process]: the methods, and
    the properties (which cannot be called). Which names exist is what
    matters below, so a method stands for a call that does nothing. *)
Definition process_methods : list string :=
  ["start"; "join"; "is_alive"; "terminate"].

Definition process_properties : list string :=
  ["name"; "daemon"; "pid"; "ident"; "exitcode"; "authkey"].

Definition process_attr (name : string) : option attr :=
  if decide (name ∈ process_methods) then Some (Callable (fun _ _ => ret tt))
  else if decide (name ∈ process_properties) then Some Data
  else None.

Definition sample_config : Config :=
  {| WORKERS := {[ "h" := "2*emails,@thumbs" ]}; path := Some "/etc/kuyruk/config.py";
     MAX_LOAD := None; MANAGER_HOST := "localhost"; MANAGER_PORT := 16501 |}.

Definition worker_a : Worker := {| obj := 0; queue_name := "emails"; pid := 10 |}.
Definition worker_b : Worker := {| obj := 1; queue_name := "emails"; pid := 11 |}.
Definition worker_c : Worker := {| obj := 2; queue_name := "thumbs_h"; pid := 12 |}.
Definition worker_d : Worker := {| obj := 3; queue_name := "emails"; pid := 13 |}.

(** On an interactive terminal; only [worker_a] is alive; the process group
    11 is already gone (errno 3), the group 13 may not be signalled (errno 1,
    EPERM); every [os.kill] succeeds; pids are given from 100 on. *)
Definition sample_env : Env :=
  {| hostname := "h";
     isatty := true;
     is_alive := fun x => bool_decide (obj x = 0%nat);
     os_kill := fun _ _ => None;
     os_killpg := fun p _ => if p =? 11 then Some 3 else if p =? 13 then Some 1 else None;
     fork := fun n => 100 + Z.of_nat n;
     config_reload := fun c => c;
     platform := sample_platform;
     inherited := process_attr;
     unembedded := fun _ _ _ => ret tt |}.

(** The n-th pass of a loop during which the workers die one after the
    other: in pass [n] the objects created after the n-th are still alive. *)
Definition dying_env (n : nat) : Env :=
  {| hostname := "h";
     isatty := true;
     is_alive := fun x => bool_decide (n < obj x)%nat;
     os_kill := fun _ _ => None;
     os_killpg := fun _ _ => None;
     fork := fun n => 100 + Z.of_nat n;
     config_reload := fun c => c;
     platform := sample_platform;
     inherited := process_attr;
     unembedded := fun _ _ _ => ret tt |}.

(** A running Master with three workers. *)
Definition sample_world : World :=
  {| master := set_workers [worker_a; worker_b; worker_c] (Master_init sample_config);
     spawned := 3;
     trace := [] |}.

(** A Master whose configuration was not loaded from a file. *)
Definition pathless_world : World :=
  {| master := set_config {| WORKERS := ∅; path := None; MAX_LOAD := None;
                             MANAGER_HOST := "localhost"; MANAGER_PORT := 16501 |}
                          (master sample_world);
     spawned := 3;
     trace := [] |}.

(** The same Master after a shutdown was requested. *)
Definition draining_world : World :=
  {| master := set_shutdown_pending true (master sample_world);
     spawned := 3;
     trace := [] |}.

(** ** Vocabulary of the further properties *)

(** How many times [c] occurs in [s]. *)
Fixpoint count_char (c : ascii) (s : string) : nat :=
  match s with
  | EmptyString => 0%nat
  | String x s' => if decide (x = c) then S (count_char c s') else count_char c s'
  end.

(** The tokens of a specification string, as [parse_queues_str] cuts it. *)
Definition tokens (s : string) : list string :=
  map PyStr.strip (PyStr.split "," s).

(** A token with a [*] whose left side is the integer literal of [n]. *)
Definition counted (q : string) (n : Z) (rest : string) : Prop :=
  exists pre, q = pre +:+ String "*" rest /\
              all_chars (differs "*") pre = true /\ PyStr.int pre = Some n.

(** The count [n] can be used: it is an index-sized integer and, when
    positive, a list of that length can be allocated. *)
Definition count_fits (pf : Platform) (n : Z) : Prop :=
  (- ssize_max pf - 1 <= n <= ssize_max pf) /\ (0 < n -> n <= list_max pf).

(** The count of the token [q], when it has one, can be used. *)
Definition count_in_range (pf : Platform) (q : string) : Prop :=
  forall n rest, counted q n rest -> count_fits pf n.

(** The multiplier of the token [t], when it has one, can be used. *)
Definition affordable (pf : Platform) (t : token) : Prop :=
  match multiplier t with
  | Some n => count_fits pf (Z.of_nat n)
  | None => True
  end.

(** A token with a [*] whose left side is no integer literal. *)
Definition miscounted (q : string) : Prop :=
  exists pre rest, q = pre +:+ String "*" rest /\
                   all_chars (differs "*") pre = true /\ PyStr.int pre = None.

(** [m] keeps [I]: from a world in [I], [m] ends in a world in [I],
    whether it returns or raises. *)
Definition keeps {A} (I : World -> Prop) (m : M A) : Prop :=
  forall w, I w -> I (snd (m w)).

(** A shutdown was requested. *)
Definition pending (w : World) : Prop := shutdown_pending (master w) = true.

(** The handles of the worker set are distinct objects, created earlier. *)
Definition distinct_objects (w : World) : Prop :=
  NoDup (map obj (workers (master w))) /\
  Forall (fun x => (obj x < spawned w)%nat) (workers (master w)).

Definition set_started (t : Z) (m : Master) : Master :=
  {| config := config m; workers := workers m; shutdown_pending := shutdown_pending m;
     override_queues := override_queues m; started := Some t |}.

Definition set_MAX_LOAD (n : Z) (c : Config) : Config :=
  {| WORKERS := WORKERS c; path := path c; MAX_LOAD := Some n;
     MANAGER_HOST := MANAGER_HOST c; MANAGER_PORT := MANAGER_PORT c |}.

(** The part of [Master.run] before the monitor loop: [now] stands for the
    value of [time()] and [cpus] for [multiprocessing.cpu_count()]. The
    registration of the signal handlers and the start of the status thread,
    which then runs beside this code, have no counterpart here. *)
Definition run_startup (env : Env) (now cpus : Z) : M unit :=
  modify_master (set_started now) ;;
  m <- get_master ;;
  match MAX_LOAD (config m) with
  | None => modify_master (fun m => set_config (set_MAX_LOAD cpus (config m)) m)
  | Some _ => ret tt
  end ;;
  _start_workers env.

(** [Master.run]: the startup, then [_wait_for_workers]. *)
Definition run (env : Env) (now cpus : Z) (env_at : nat -> Env) (fuel : nat) (w : World)
  : option (result unit * World) :=
  match run_startup env now cpus w with
  | (Raise e, w') => Some (Raise e, w')
  | (Ok _, w') => _wait_for_workers env_at fuel 0 w'
  end.

(** The Master after the first steps of [run]: the start time recorded,
    [MAX_LOAD] set to the number of processors when it was not set. *)
Definition startup_master (now cpus : Z) (m : Master) : Master :=
  match MAX_LOAD (config m) with
  | None => set_config (set_MAX_LOAD cpus (config m)) (set_started now m)
  | Some _ => set_started now m
  end.

(** As [sample_env], but the process 11 is gone: signalling it fails with
    errno 3. *)
Definition stale_env : Env :=
  {| hostname := "h";
     isatty := true;
     is_alive := fun x => bool_decide (obj x = 0%nat);
     os_kill := fun p _ => if p =? 11 then Some 3 else None;
     os_killpg := fun p _ => if p =? 11 then Some 3 else None;
     fork := fun n => 100 + Z.of_nat n;
     config_reload := fun c => c;
     platform := sample_platform;
     inherited := process_attr;
     unembedded := fun _ _ _ => ret tt |}.

(** A Master just created, for a host without entry in [WORKERS]. *)
Definition fresh_world : World :=
  {| master := Master_init {| WORKERS := {[ "other" := "a,b" ]}; path := None;
                              MAX_LOAD := None; MANAGER_HOST := "localhost";
                              MANAGER_PORT := 16501 |};
     spawned := 0;
     trace := [] |}.

(** A Master just created whose queues are given on the command line. *)
Definition overridden_world (queues : string) : World :=
  {| master := {| config := sample_config; workers := []; shutdown_pending := false;
                  override_queues := Some queues; started := None |};
     spawned := 0;
     trace := [] |}.

(** * Properties *)

Example parse_ex1 :
  parse_queues_str sample_platform "h" "3*foo,@bar,baz" = Ok ["foo"; "foo"; "foo"; "bar_h"; "baz"].
Proof. reflexivity. Qed.

Example parse_ex2 : parse_queues_str sample_platform "h" " a , 2 * b ,-1*c,+1*@d" = Ok ["a"; " b"; " b"; "d_h"].
Proof. reflexivity. Qed.

Example parse_ex3 : parse_queues_str sample_platform "h" "" = Ok [""].
Proof. reflexivity. Qed.

Example parse_ex4 : parse_queues_str sample_platform "h" "x*foo" = Raise ValueError.
Proof. reflexivity. Qed.

Example int_examples :
  PyStr.int " 12 " = Some 12 /\ PyStr.int "-3" = Some (-3) /\ PyStr.int "+7" = Some 7 /\
  PyStr.int "- 1" = Some (-1) /\ PyStr.int " + 7 " = Some 7 /\
  PyStr.int "99999999999999999999" = Some 99999999999999999999 /\
  PyStr.int "" = None /\ PyStr.int "+" = None /\ PyStr.int "- " = None /\
  PyStr.int "1 2" = None /\ PyStr.int "+-1" = None /\
  PyStr.int "3L" = None /\ PyStr.int "0x10" = None /\ PyStr.int "007" = Some 7.
Proof. repeat split; reflexivity. Qed.

Example parse_count_examples :
  parse_count sample_platform "99999999999999999999*a" = Raise OverflowError /\
  parse_count sample_platform "-99999999999999999999*a" = Raise OverflowError /\
  parse_count sample_platform "9223372036854775807*a" = Raise MemoryError /\
  parse_count sample_platform "-9223372036854775808*a" = Ok [] /\
  parse_count sample_platform "- 1*a" = Ok [] /\
  parse_count sample_platform "2*a*b" = Ok ["a*b"; "a*b"] /\
  parse_queues_str sample_platform "h" "99999999999999999999*a,x*b" = Raise OverflowError.
Proof. repeat split; reflexivity. Qed.

(** ** Strings *)

Local Arguments String.append !_ _ / : simpl nomatch.

Section StringFacts.

Implicit Types (s a b : string) (c : ascii) (P : ascii -> bool).

Lemma append_nil_r s : s +:+ "" = s.
Proof. induction s as [|c s IH]; [done|]. cbn. by rewrite IH. Qed.

Lemma append_assoc a b s : (a +:+ b) +:+ s = a +:+ (b +:+ s).
Proof. induction a as [|c a IH]; [done|]. cbn. by rewrite IH. Qed.

Lemma all_chars_app P a b :
  all_chars P (a +:+ b) = all_chars P a && all_chars P b.
Proof.
  induction a as [|c a IH]; [done|]. cbn. rewrite IH. by destruct (P c).
Qed.

Lemma all_chars_impl P Q s :
  (forall c, P c = true -> Q c = true) -> all_chars P s = true -> all_chars Q s = true.
Proof.
  intros HPQ. induction s as [|c s IH]; [done|]. cbn.
  intros [Hc Hs]%andb_prop. rewrite (HPQ _ Hc). cbn. auto.
Qed.

Lemma split_nonempty sep s : PyStr.split sep s <> [].
Proof.
  destruct s as [|c s]; [done|]. cbn. case_decide; [done|].
  by destruct (PyStr.split sep s).
Qed.

Lemma split_no_sep sep a :
  all_chars (differs sep) a = true -> PyStr.split sep a = [a].
Proof.
  induction a as [|c a IH]; [done|]. cbn. unfold differs at 1.
  intros [Hc Ha]%andb_prop. apply negb_true_iff, bool_decide_eq_false in Hc.
  case_decide; [done|]. by rewrite (IH Ha).
Qed.

Lemma split_app sep a s :
  all_chars (differs sep) a = true ->
  PyStr.split sep (a +:+ String sep s) = a :: PyStr.split sep s.
Proof.
  induction a as [|c a IH]; cbn.
  - intros _. by case_decide.
  - unfold differs at 1. intros [Hc Ha]%andb_prop.
    apply negb_true_iff, bool_decide_eq_false in Hc.
    case_decide; [done|]. by rewrite (IH Ha).
Qed.

Lemma split_once_no_sep sep a :
  all_chars (differs sep) a = true -> PyStr.split_once sep a = [a].
Proof.
  induction a as [|c a IH]; [done|]. cbn. unfold differs at 1.
  intros [Hc Ha]%andb_prop. apply negb_true_iff, bool_decide_eq_false in Hc.
  case_decide; [done|]. by rewrite (IH Ha).
Qed.

Lemma split_once_app sep a s :
  all_chars (differs sep) a = true ->
  PyStr.split_once sep (a +:+ String sep s) = [a; s].
Proof.
  induction a as [|c a IH]; cbn.
  - intros _. by case_decide.
  - unfold differs at 1. intros [Hc Ha]%andb_prop.
    apply negb_true_iff, bool_decide_eq_false in Hc.
    case_decide; [done|]. by rewrite (IH Ha).
Qed.

Lemma lstrip_spaces a s :
  all_chars PyStr.is_space a = true -> PyStr.lstrip (a +:+ s) = PyStr.lstrip s.
Proof.
  induction a as [|c a IH]; [done|]. cbn.
  intros [Hc Ha]%andb_prop. rewrite Hc. auto.
Qed.

Lemma lstrip_starts s : starts_nonspace s = true -> PyStr.lstrip s = s.
Proof. destruct s as [|c s]; [done|]. cbn. by intros ->%negb_true_iff. Qed.

Lemma rstrip_spaces a : all_chars PyStr.is_space a = true -> PyStr.rstrip a = "".
Proof.
  induction a as [|c a IH]; [done|]. cbn.
  intros [Hc Ha]%andb_prop. by rewrite (IH Ha), Hc.
Qed.

Lemma rstrip_app_spaces s a :
  all_chars PyStr.is_space a = true -> PyStr.rstrip (s +:+ a) = PyStr.rstrip s.
Proof.
  intros Ha. induction s as [|c s IH]; cbn.
  - by apply rstrip_spaces.
  - by rewrite IH.
Qed.

Lemma rstrip_ends s : ends_nonspace s = true -> PyStr.rstrip s = s.
Proof.
  induction s as [|c s IH]; [done|]. cbn. destruct s as [|c' s].
  - cbn. by intros ->%negb_true_iff.
  - intros Hs. by rewrite (IH Hs).
Qed.

Lemma strip_padded a s b :
  all_chars PyStr.is_space a = true -> all_chars PyStr.is_space b = true ->
  starts_nonspace s = true -> ends_nonspace s = true ->
  PyStr.strip (a +:+ s +:+ b) = s.
Proof.
  intros Ha Hb Hs He. unfold PyStr.strip.
  rewrite (lstrip_spaces _ _ Ha).
  destruct s as [|c s].
  - cbn. replace (PyStr.lstrip b) with EmptyString; [done|].
    clear -Hb. induction b as [|c b IH]; [done|]. cbn in *.
    apply andb_prop in Hb as [-> ?]. auto.
  - rewrite lstrip_starts.
    + rewrite (rstrip_app_spaces _ _ Hb). by apply rstrip_ends.
    + done.
Qed.

Lemma ends_nonspace_app a s :
  s <> "" -> ends_nonspace s = true -> ends_nonspace (a +:+ s) = true.
Proof.
  intros Hne Hs. induction a as [|c a IH]; [done|]. cbn.
  destruct (a +:+ s) eqn:E; [|done].
  destruct a; [|done]. cbn in E. congruence.
Qed.

Lemma differs_ne sep (c : ascii) : c <> sep -> differs sep c = true.
Proof. intros Hne. unfold differs. by rewrite bool_decide_eq_false_2. Qed.

Lemma split_once_parts sep (q : string) :
  (PyStr.split_once sep q = [q] /\ all_chars (differs sep) q = true) \/
  (exists pre rest, PyStr.split_once sep q = [pre; rest] /\
                    q = pre +:+ String sep rest /\ all_chars (differs sep) pre = true).
Proof.
  induction q as [|c q IH]; [by left|]. cbn [PyStr.split_once].
  destruct (decide (c = sep)) as [->|Hne].
  - right. by exists EmptyString, q.
  - destruct IH as [[Hq Hall] | (pre & rest & Hq & Heq & Hpre)]; rewrite Hq.
    + left. split; [done|]. cbn. by rewrite (differs_ne _ _ Hne), Hall.
    + right. exists (String c pre), rest. split; [done|]. split.
      * cbn. by rewrite <- Heq.
      * cbn. by rewrite (differs_ne _ _ Hne), Hpre.
Qed.

(** The part before the first [sep] is determined by the string. *)
Lemma split_prefix_unique sep (q pre1 rest1 pre2 rest2 : string) :
  q = pre1 +:+ String sep rest1 -> q = pre2 +:+ String sep rest2 ->
  all_chars (differs sep) pre1 = true -> all_chars (differs sep) pre2 = true ->
  pre2 = pre1 /\ rest2 = rest1.
Proof.
  intros H1 H2 Hp1 Hp2.
  pose proof (split_once_app sep pre1 rest1 Hp1) as E1.
  pose proof (split_once_app sep pre2 rest2 Hp2) as E2.
  rewrite <- H1 in E1. rewrite <- H2 in E2. split; congruence.
Qed.

End StringFacts.

(** ** Decimal numerals *)

Section DecimalFacts.

Lemma digit_char c n :
  Ascii.is_nat c = Some n ->
  PyStr.is_space c = false /\ differs "," c = true /\ differs "*" c = true /\
  c <> "-"%char /\ c <> "+"%char.
Proof.
  destruct c as [[] [] [] [] [] [] [] []]; cbn; intros H; try discriminate H;
    repeat split; done.
Qed.

Lemma all_chars_uint (P : ascii -> bool) d :
  (forall c n, Ascii.is_nat c = Some n -> P c = true) ->
  all_chars P (NilEmpty.string_of_uint d) = true.
Proof.
  intros HP. induction d; cbn; [done|..]; rewrite IHd, andb_true_r;
    by eapply HP.
Qed.

Lemma digits_uint d acc :
  PyStr.digits (Z.of_nat acc) (NilEmpty.string_of_uint d)
  = Some (Z.of_nat (Nat.of_uint_acc d acc)).
Proof.
  revert acc. induction d; intros acc; [done|..];
    cbn [NilEmpty.string_of_uint PyStr.digits Nat.of_uint_acc];
    cbn [PyStr.digit Ascii.is_nat fmap option_fmap option_map];
    rewrite <- IHd; do 2 f_equal; rewrite Nat.tail_mul_spec; lia.
Qed.

Lemma decimal_nonempty n : decimal n <> "".
Proof.
  unfold decimal. pose proof (DecimalFacts.unorm_nonnil (Nat.to_uint n)) as Hn.
  rewrite <- Unsigned.to_of, Unsigned.of_to in Hn.
  by destruct (Nat.to_uint n).
Qed.

Lemma decimal_chars (P : ascii -> bool) n :
  (forall c k, Ascii.is_nat c = Some k -> P c = true) ->
  all_chars P (decimal n) = true.
Proof. apply all_chars_uint. Qed.

Lemma decimal_head n : exists c k s, decimal n = String c s /\ Ascii.is_nat c = Some k.
Proof.
  pose proof (decimal_nonempty n) as Hne.
  pose proof (decimal_chars
    (fun c => match Ascii.is_nat c with Some _ => true | None => false end) n) as Hd.
  destruct (decimal n) as [|c s]; [done|].
  cbn [all_chars] in Hd. destruct (Ascii.is_nat c) as [k|] eqn:E.
  - by exists c, k, s.
  - exfalso. cbn in Hd. discriminate Hd. by intros ? ? ->.
Qed.

Lemma decimal_nonspace n : all_chars (fun c => negb (PyStr.is_space c)) (decimal n) = true.
Proof. apply decimal_chars. intros c k [-> _]%digit_char. done. Qed.

Lemma nonspace_starts s :
  all_chars (fun c => negb (PyStr.is_space c)) s = true -> starts_nonspace s = true.
Proof. destruct s; [done|]. cbn. by intros [? _]%andb_prop. Qed.

Lemma nonspace_ends s :
  all_chars (fun c => negb (PyStr.is_space c)) s = true -> ends_nonspace s = true.
Proof.
  induction s as [|c s IH]; [done|]. cbn. intros [Hc Hs]%andb_prop.
  destruct s; auto.
Qed.

(** [int] reads back the decimal numeral of [n]. *)
Lemma int_decimal n : PyStr.int (decimal n) = Some (Z.of_nat n).
Proof.
  unfold PyStr.int.
  pose proof (decimal_nonspace n) as Hns.
  rewrite lstrip_starts by by apply nonspace_starts.
  destruct (decimal_head n) as (c & k & s & E & Hc).
  rewrite E. apply digit_char in Hc as (_ & _ & _ & Hm & Hp).
  rewrite !decide_False by done. rewrite <- E.
  rewrite rstrip_ends by by apply nonspace_ends.
  rewrite E. cbn [PyStr.unsigned]. rewrite <- E. unfold decimal.
  change 0 with (Z.of_nat 0). rewrite digits_uint.
  fold (Nat.of_uint (Nat.to_uint n)). by rewrite Unsigned.of_to.
Qed.

End DecimalFacts.

(** ** Strings that [int] rejects *)

Section IntFacts.

Implicit Types (s : string) (Q : ascii -> bool).

Lemma any_char_lstrip Q s :
  (forall c, Q c = true -> PyStr.is_space c = false) ->
  any_char Q (PyStr.lstrip s) = any_char Q s.
Proof.
  intros HQ. induction s as [|c s IH]; [done|]. cbn.
  destruct (PyStr.is_space c) eqn:E; [|done].
  rewrite IH. destruct (Q c) eqn:Ec; [|done]. apply HQ in Ec. congruence.
Qed.

Lemma any_char_rstrip Q s :
  (forall c, Q c = true -> PyStr.is_space c = false) ->
  any_char Q (PyStr.rstrip s) = any_char Q s.
Proof.
  intros HQ. induction s as [|c s IH]; [done|]. cbn.
  destruct (PyStr.rstrip s) as [|c' r].
  - rewrite <- IH. cbn. rewrite orb_false_r.
    destruct (PyStr.is_space c) eqn:E; cbn; [|by rewrite orb_false_r].
    destruct (Q c) eqn:Ec; [|done]. apply HQ in Ec. congruence.
  - cbn [any_char]. by rewrite <- IH.
Qed.

Lemma digits_rejects s : forall acc,
  any_char (fun c => negb (numeral_char c)) s = true -> PyStr.digits acc s = None.
Proof.
  induction s as [|c s IH]; intros acc; [done|]. cbn. unfold PyStr.digit, numeral_char.
  destruct (Ascii.is_nat c); cbn; [|done]. auto.
Qed.

(** A segment with a character that is no digit, no sign and no blank is
    not an integer literal. *)
Lemma unsigned_rejects s :
  any_char (fun c => negb (numeral_char c)) s = true -> PyStr.unsigned s = None.
Proof. destruct s; [done|]. apply digits_rejects. Qed.

(** A segment with a character that is no digit, no sign and no blank is
    not an integer literal. *)
Lemma int_rejects_non_numeral s :
  any_char (fun c => negb (numeral_char c)) s = true -> PyStr.int s = None.
Proof.
  intros Hs. unfold PyStr.int, PyStr.strip.
  assert (HQ : forall c, negb (numeral_char c) = true -> PyStr.is_space c = false).
  { intros c Hc. apply negb_true_iff in Hc. unfold numeral_char in Hc.
    by destruct (PyStr.is_space c); [rewrite orb_true_r in Hc|]. }
  rewrite <- (any_char_lstrip _ s HQ) in Hs.
  destruct (PyStr.lstrip s) as [|c ds]; [done|].
  assert (Hsign : forall c', c = c' -> numeral_char c' = true ->
            PyStr.unsigned (PyStr.rstrip (PyStr.lstrip ds)) = None).
  { intros c' -> Hc'. cbn in Hs. rewrite Hc' in Hs. cbn in Hs.
    apply unsigned_rejects. by rewrite any_char_rstrip, any_char_lstrip. }
  destruct (decide (c = "-"%char)) as [E|_].
  - by rewrite (Hsign _ E).
  - destruct (decide (c = "+"%char)) as [E|_].
    + by rewrite (Hsign _ E).
    + apply unsigned_rejects. by rewrite any_char_rstrip.
Qed.

End IntFacts.

(** ** The parser on rendered tokens *)

Section ParserFacts.

Variable pf : Platform.
Variable h : string.

Lemma repeat_list_fits {A} n (x : A) :
  count_fits pf n -> PyStr.repeat_list pf n x = Ok (replicate (Z.to_nat n) x).
Proof.
  intros [[Hlo Hhi] Hmem]. unfold PyStr.repeat_list.
  destruct (Z.ltb_spec n (- ssize_max pf - 1)); [lia|].
  destruct (Z.ltb_spec (ssize_max pf) n); [lia|]. cbn [orb].
  destruct (Z.leb_spec n 0).
  - by replace (Z.to_nat n) with 0%nat by lia.
  - destruct (Z.ltb_spec (list_max pf) n); [|done]. specialize (Hmem ltac:(lia)). lia.
Qed.

Lemma repeat_list_raises {A} n (x : A) e :
  PyStr.repeat_list pf n x = Raise e ->
  ~ count_fits pf n /\ (e = OverflowError \/ e = MemoryError).
Proof.
  unfold PyStr.repeat_list, count_fits.
  destruct (Z.ltb_spec n (- ssize_max pf - 1)); cbn [orb].
  { intros [= <-]. split; [lia | by left]. }
  destruct (Z.ltb_spec (ssize_max pf) n); cbn [orb].
  { intros [= <-]. split; [lia | by left]. }
  destruct (Z.leb_spec n 0); [done|].
  destruct (Z.ltb_spec (list_max pf) n); [|done].
  intros [= <-]. split; [lia | by right].
Qed.

Lemma repeat_list_unfit {A} n (x : A) :
  ~ count_fits pf n -> exists e, PyStr.repeat_list pf n x = Raise e.
Proof.
  intros Hn. destruct (PyStr.repeat_list pf n x) as [l|e] eqn:E; [|by exists e].
  exfalso. apply Hn. revert E. unfold PyStr.repeat_list, count_fits.
  destruct (Z.ltb_spec n (- ssize_max pf - 1)); cbn [orb]; [done|].
  destruct (Z.ltb_spec (ssize_max pf) n); cbn [orb]; [done|].
  destruct (Z.leb_spec n 0); [intros _; lia|].
  destruct (Z.ltb_spec (list_max pf) n); [done|]. intros _. lia.
Qed.

Lemma parse_count_plain a :
  all_chars (differs "*") a = true -> parse_count pf a = Ok [a].
Proof. intros Ha. unfold parse_count. by rewrite split_once_no_sep. Qed.

Lemma parse_count_counted q n rest :
  counted q n rest -> parse_count pf q = PyStr.repeat_list pf n rest.
Proof.
  intros (pre & -> & Hpre & Hint). unfold parse_count.
  by rewrite split_once_app, Hint.
Qed.

Lemma decimal_counted n a : counted (decimal n +:+ String "*" a) (Z.of_nat n) a.
Proof.
  exists (decimal n). split; [done|]. split; [|apply int_decimal].
  apply decimal_chars. by intros c k (_ & _ & ? & _)%digit_char.
Qed.

Lemma parse_count_times n a :
  count_fits pf (Z.of_nat n) ->
  parse_count pf (decimal n +:+ String "*" a) = Ok (replicate n a).
Proof.
  intros Hn. rewrite (parse_count_counted _ _ _ (decimal_counted n a)).
  rewrite repeat_list_fits by done. by rewrite Nat2Z.id.
Qed.

Lemma parse_count_bad pre rest :
  all_chars (differs "*") pre = true -> PyStr.int pre = None ->
  parse_count pf (pre +:+ String "*" rest) = Raise ValueError.
Proof.
  intros Hpre Hint. unfold parse_count. rewrite split_once_app by done.
  by rewrite Hint.
Qed.

(** Why [parse_count] raises: the left side of the [*] is no integer
    literal, or it is one that cannot be used as a count. *)
Lemma parse_count_raises q e :
  parse_count pf q = Raise e ->
  (e = ValueError /\ miscounted q) \/
  ((e = OverflowError \/ e = MemoryError) /\
   exists n rest, counted q n rest /\ ~ count_fits pf n).
Proof.
  unfold parse_count.
  destruct (split_once_parts "*" q) as [[-> _] | (pre & rest & -> & Hq & Hpre)];
    [done|].
  destruct (PyStr.int pre) as [n|] eqn:E.
  - intros [Hn He]%repeat_list_raises. right. split; [done|].
    exists n, rest. split; [by exists pre | done].
  - intros [= <-]. left. split; [done|]. by exists pre, rest.
Qed.

Lemma parse_count_raises_in_range q e :
  count_in_range pf q -> parse_count pf q = Raise e -> e = ValueError.
Proof.
  intros Hq [[-> _] | [_ (n & rest & Hc & Hn)]]%parse_count_raises; [done|].
  by specialize (Hq _ _ Hc).
Qed.

Lemma chain_counts_raises q qs :
  q ∈ qs -> (exists e, parse_count pf q = Raise e) ->
  exists e, chain_counts pf qs = Raise e.
Proof.
  intros Hin [e Hq]. induction Hin as [q qs | q q' qs Hin IH]; cbn.
  - rewrite Hq. by exists e.
  - destruct (parse_count pf q') as [l|e'] eqn:E; [|by exists e'].
    destruct (IH Hq) as [e' ->]. by exists e'.
Qed.

Lemma chain_counts_raises_in_range qs e :
  Forall (count_in_range pf) qs -> chain_counts pf qs = Raise e -> e = ValueError.
Proof.
  induction 1 as [|q qs Hq _ IH]; [done|]. cbn.
  destruct (parse_count pf q) as [l|e'] eqn:E.
  - destruct (chain_counts pf qs) as [ls|e'']; [done|]. intros [= <-]. by apply IH.
  - intros [= <-]. by eapply parse_count_raises_in_range.
Qed.

Lemma chain_counts_ok qs ls :
  Forall2 (fun q l => parse_count pf q = Ok l) qs ls -> chain_counts pf qs = Ok (concat ls).
Proof. induction 1 as [|q l qs ls Hq _ IH]; [done|]. cbn. by rewrite Hq, IH. Qed.

Lemma plain_name_facts s :
  plain_name s = true ->
  all_chars (differs ",") s = true /\ all_chars (differs "*") s = true /\
  starts_with_at s = false /\ starts_nonspace s = true /\ ends_nonspace s = true.
Proof.
  unfold plain_name. intros [[[Hc Hat]%andb_prop Hs]%andb_prop He]%andb_prop.
  apply negb_true_iff in Hat. repeat split; try done.
  - eapply all_chars_impl; [|exact Hc]. unfold name_char. by intros c [? _]%andb_prop.
  - eapply all_chars_impl; [|exact Hc]. unfold name_char. by intros c [_ ?]%andb_prop.
Qed.

Lemma spaces_no_comma a :
  all_chars PyStr.is_space a = true -> all_chars (differs ",") a = true.
Proof.
  apply all_chars_impl. intros c Hc.
  destruct c as [[] [] [] [] [] [] [] []]; done.
Qed.

Lemma render_core t : render t = lpad t +:+ core t +:+ rpad t.
Proof. unfold render, core. by rewrite !append_assoc. Qed.

Lemma render_no_comma t :
  well_formed t -> all_chars (differs ",") (render t) = true.
Proof.
  intros (Hl & Hr & Hn). apply plain_name_facts in Hn as (Hn & _).
  unfold render.
  rewrite !all_chars_app, Hn, (spaces_no_comma _ Hl), (spaces_no_comma _ Hr).
  cbn [andb]. rewrite andb_true_r. apply andb_true_intro. split.
  - destruct (multiplier t) as [n|]; [|done].
    rewrite all_chars_app. apply andb_true_intro. split; [|done].
    apply decimal_chars. by intros c k (_ & ? & _)%digit_char.
  - by destruct (scoped t).
Qed.

Lemma core_starts t : well_formed t -> starts_nonspace (core t) = true.
Proof.
  intros (_ & _ & Hn). apply plain_name_facts in Hn as (_ & _ & _ & Hs & _).
  unfold core. destruct (multiplier t) as [n|].
  - destruct (decimal_head n) as (c & k & s & -> & Hc). cbn.
    apply digit_char in Hc as [-> _]. done.
  - destruct (scoped t); done.
Qed.

Lemma core_ends t : well_formed t -> ends_nonspace (core t) = true.
Proof.
  intros (_ & _ & Hn). apply plain_name_facts in Hn as (_ & _ & _ & _ & He).
  unfold core. rewrite <- append_assoc.
  destruct (decide (name t = "")) as [->|Hne].
  - rewrite append_nil_r. destruct (scoped t).
    + apply ends_nonspace_app; done.
    + rewrite append_nil_r. destruct (multiplier t); [|done].
      apply ends_nonspace_app; done.
  - by apply ends_nonspace_app.
Qed.

Lemma strip_render t : well_formed t -> PyStr.strip (render t) = core t.
Proof.
  intros Ht. rewrite render_core. destruct Ht as (Hl & Hr & Hn) eqn:E. clear E.
  apply strip_padded; try done.
  - by apply core_starts.
  - by apply core_ends.
Qed.

(** The name of a token as written, with its [@] when scoped. *)
Lemma parse_count_core t :
  well_formed t -> affordable pf t ->
  parse_count pf (core t)
  = Ok (replicate (match multiplier t with Some n => n | None => 1%nat end)
                  ((if scoped t then "@" else "") +:+ name t)).
Proof.
  intros (_ & _ & Hn) Hfit. apply plain_name_facts in Hn as (_ & Hstar & _).
  unfold core, affordable in *. destruct (multiplier t) as [n|].
  - rewrite append_assoc. cbn [String.append]. by apply parse_count_times.
  - cbn [String.append replicate]. apply parse_count_plain.
    rewrite all_chars_app, Hstar. by destruct (scoped t).
Qed.

Lemma parse_local_written t :
  well_formed t ->
  parse_local h ((if scoped t then "@" else "") +:+ name t)
  = if scoped t then name t +:+ "_" +:+ h else name t.
Proof.
  intros (_ & _ & Hn). apply plain_name_facts in Hn as (_ & _ & Hat & _).
  destruct (scoped t); [done|]. cbn [String.append].
  destruct (name t) as [|c s]; [done|].
  unfold starts_with_at in Hat. unfold parse_local.
  destruct c as [[] [] [] [] [] [] [] []]; done.
Qed.

Lemma split_join l :
  l <> [] -> Forall (fun s => all_chars (differs ",") s = true) l ->
  PyStr.split "," (PyStr.join "," l) = l.
Proof.
  intros Hne Hl. induction Hl as [|a l Ha Hl IH]; [done|].
  destruct l as [|b l].
  - cbn. by apply split_no_sep.
  - cbn [PyStr.join]. cbn [String.append]. rewrite split_app by done.
    f_equal. by apply IH.
Qed.

Lemma parse_render ts :
  ts <> [] -> Forall well_formed ts -> Forall (affordable pf) ts ->
  parse_queues_str pf h (PyStr.join "," (map render ts))
  = Ok (concat (map (expansion h) ts)).
Proof.
  intros Hne Hts Hfit. unfold parse_queues_str.
  rewrite split_join.
  - rewrite (chain_counts_ok _
      (map (fun t => replicate (match multiplier t with Some n => n | None => 1%nat end)
                               ((if scoped t then "@" else "") +:+ name t)) ts)).
    + f_equal. clear Hne Hfit. induction Hts as [|t ts Ht _ IH]; [done|].
      cbn [map concat]. rewrite map_app, IH. f_equal.
      unfold expansion. rewrite <- (parse_local_written t Ht).
      generalize (match multiplier t with Some n => n | None => 1%nat end).
      intros k. induction k as [|k IHk]; [done|]. cbn. by rewrite IHk.
    + clear Hne. induction Hts as [|t ts Ht _ IH]; [constructor|].
      apply Forall_cons in Hfit as [Hft Hfit].
      cbn [map]. constructor; [|by apply IH].
      rewrite (strip_render t Ht). by apply parse_count_core.
  - by destruct ts.
  - clear Hne Hfit. induction Hts as [|t ts Ht _ IH]; constructor; [|done].
    by apply render_no_comma.
Qed.

End ParserFacts.

(** ** Queue specifications (C3, C4, C5) *)

(** C3. Every specification string written in the grammar (tokens separated
    by commas, each possibly surrounded by blanks, with an optional decimal
    multiplier [N*] and an optional [@] before a plain name) parses to the
    expansions of its tokens in order: [N] copies of the name for [N*name],
    each copy host-scoped to [name_<hostname>] when the name was written
    [@name]. This for multipliers within the limits of the platform, that
    is index-sized and small enough for the list of copies to be allocated.
    On host [h], "3*foo,@bar,baz" gives foo, foo, foo, bar_h, baz. *)
Theorem parse_queues_str_expands (pf : Platform) (h : string) (t : token)
    (ts : list token) :
  Forall well_formed (t :: ts) ->
  Forall (affordable pf) (t :: ts) ->
  parse_queues_str pf h (PyStr.join "," (map render (t :: ts)))
  = Ok (concat (map (expansion h) (t :: ts)))
  /\ (count_fits pf 3 ->
      parse_queues_str pf h "3*foo,@bar,baz"
      = Ok ["foo"; "foo"; "foo"; "bar_" +:+ h; "baz"]).
Proof.
  intros Hts Hfit. split; [by apply parse_render|].
  intros H3.
  pose (t1 := {| lpad := ""; multiplier := Some 3%nat; scoped := false;
                 name := "foo"; rpad := "" |}).
  pose (t2 := {| lpad := ""; multiplier := None; scoped := true;
                 name := "bar"; rpad := "" |}).
  pose (t3 := {| lpad := ""; multiplier := None; scoped := false;
                 name := "baz"; rpad := "" |}).
  change "3*foo,@bar,baz" with (PyStr.join "," (map render [t1; t2; t3])).
  rewrite (parse_render pf h [t1; t2; t3]); [done|done|..].
  - constructor; [repeat split; reflexivity|].
    constructor; [repeat split; reflexivity|].
    constructor; [repeat split; reflexivity|]. constructor.
  - constructor; [exact H3|]. constructor; [exact I|]. constructor; [exact I|].
    constructor.
Qed.

Lemma parse_queues_str_expands_witness :
  let t1 := {| lpad := " "; multiplier := Some 2%nat; scoped := true;
               name := "mail"; rpad := "  " |} in
  let t2 := {| lpad := ""; multiplier := None; scoped := false;
               name := "low prio"; rpad := " " |} in
  Forall well_formed [t1; t2] /\
  Forall (affordable sample_platform) [t1; t2] /\
  count_fits sample_platform 3 /\
  (parse_queues_str sample_platform "h" " 2*@mail  ,low prio "
   = Ok ["mail_h"; "mail_h"; "low prio"]
   /\ parse_queues_str sample_platform "h" "3*foo,@bar,baz"
      = Ok ["foo"; "foo"; "foo"; "bar_h"; "baz"]).
Proof.
  intros t1 t2.
  assert (Hwf : Forall well_formed [t1; t2]).
  { constructor; [repeat split; reflexivity|].
    constructor; [repeat split; reflexivity|]. constructor. }
  assert (Hfit : Forall (affordable sample_platform) [t1; t2]).
  { constructor; [|constructor; [exact I | constructor]].
    unfold affordable, count_fits. cbn. lia. }
  assert (H3 : count_fits sample_platform 3).
  { unfold count_fits. cbn. lia. }
  split; [exact Hwf|]. split; [exact Hfit|]. split; [exact H3|].
  destruct (parse_queues_str_expands sample_platform "h" t1 [t2] Hwf Hfit) as [H1 H2].
  split; [exact H1 | exact (H2 H3)].
Defined.

(** C4, as the code has it. A specification with a token whose segment
    before the first [*] is not an integer literal (int() raises on it)
    makes [parse_queues_str] raise, whatever the other tokens are: no result
    is returned. The exception is the ValueError of int() when the counts of
    the tokens that have one are within the limits of the platform; a count
    beyond them in an earlier token raises first (OverflowError,
    MemoryError). A segment with a character that is no digit, sign or
    blank is such a segment ([int_rejects_non_numeral]). Empty tokens are
    not rejected ([parse_accepts_empty_token]). *)
Theorem parse_rejects_bad_multiplier (pf : Platform) (h s q pre rest : string) :
  q ∈ map PyStr.strip (PyStr.split "," s) ->
  q = pre +:+ String "*" rest ->
  all_chars (differs "*") pre = true ->
  PyStr.int pre = None ->
  (exists e, parse_queues_str pf h s = Raise e) /\
  (forall e, parse_queues_str pf h s = Raise e ->
     e = ValueError \/ e = OverflowError \/ e = MemoryError) /\
  (Forall (count_in_range pf) (map PyStr.strip (PyStr.split "," s)) ->
   parse_queues_str pf h s = Raise ValueError).
Proof.
  intros Hq -> Hpre Hint. unfold parse_queues_str.
  destruct (chain_counts_raises pf _ _ Hq) as [e He].
  { exists ValueError. by apply parse_count_bad. }
  rewrite He. split; [by exists e|]. split.
  - intros e' [= <-]. clear Hq.
    induction (map PyStr.strip (PyStr.split "," s)) as [|q qs IH]; [done|].
    cbn in He. destruct (parse_count pf q) as [l|e'] eqn:E.
    + destruct (chain_counts pf qs) as [ls|e'']; [done|]. injection He as ->. by apply IH.
    + injection He as ->.
      apply parse_count_raises in E as [[-> _] | [[-> | ->] _]]; auto.
  - intros Hrange. by rewrite (chain_counts_raises_in_range pf _ _ Hrange He).
Qed.

Lemma parse_rejects_bad_multiplier_witness :
  "two*b" ∈ map PyStr.strip (PyStr.split "," "a, two*b ,3*c") /\
  PyStr.int "two" = None /\
  Forall (count_in_range sample_platform)
         (map PyStr.strip (PyStr.split "," "a, two*b ,3*c")) /\
  parse_queues_str sample_platform "h" "a, two*b ,3*c" = Raise ValueError.
Proof.
  assert (Hin : "two*b" ∈ map PyStr.strip (PyStr.split "," "a, two*b ,3*c")).
  { vm_compute. apply list_elem_of_further, list_elem_of_here. }
  assert (Hrange : Forall (count_in_range sample_platform)
                          (map PyStr.strip (PyStr.split "," "a, two*b ,3*c"))).
  { assert (Hno : forall pre r, "a" <> pre +:+ String "*" r).
    { intros [|c [|c' pre]] r; cbn; congruence. }
    assert (E2 : PyStr.int "two" = None) by reflexivity.
    assert (E3 : PyStr.int "3" = Some 3) by reflexivity.
    change (map PyStr.strip (PyStr.split "," "a, two*b ,3*c")) with ["a"; "two*b"; "3*c"].
    constructor; [|constructor; [|constructor; [|constructor]]].
    - intros n r (pre & Heq & _). by apply Hno in Heq.
    - intros n r (pre & Heq & Hpre & Hint).
      destruct (split_prefix_unique "*" "two*b" "two" "b" pre r eq_refl Heq eq_refl Hpre)
        as [-> _].
      congruence.
    - intros n r (pre & Heq & Hpre & Hint).
      destruct (split_prefix_unique "*" "3*c" "3" "c" pre r eq_refl Heq eq_refl Hpre)
        as [-> _].
      rewrite E3 in Hint. injection Hint as <-. unfold count_fits. cbn. lia. }
  split; [exact Hin|]. split; [reflexivity|]. split; [exact Hrange|].
  exact (proj2 (proj2 (parse_rejects_bad_multiplier sample_platform "h" "a, two*b ,3*c"
           "two*b" "two" "b" Hin eq_refl eq_refl eq_refl)) Hrange).
Defined.

(** C4, as stated, fails: the empty specification and a specification with
    an empty token are parsed, the empty token giving the empty queue name. *)
Lemma parse_accepts_empty_token :
  parse_queues_str sample_platform "h" "" = Ok [""] /\
  parse_queues_str sample_platform "h" "a, ,b" = Ok ["a"; ""; "b"].
Proof. split; reflexivity. Qed.

(** C5, as the code has it. Parsing the comma-joined form of a non-empty
    list of plain queue names (no comma, no [*], no leading [@], no
    surrounding whitespace) returns that list. *)
Theorem parse_plain_names (pf : Platform) (h : string) (names : list string) :
  names <> [] ->
  Forall (fun s => plain_name s = true) names ->
  parse_queues_str pf h (PyStr.join "," names) = Ok names.
Proof.
  intros Hne Hnames.
  pose proof (parse_render pf h (map plain_token names)) as Hp.
  rewrite map_map in Hp.
  replace (map (fun s => render (plain_token s)) names) with names in Hp.
  - rewrite Hp.
    + f_equal. rewrite map_map. clear. induction names as [|a l IH]; [done|].
      cbn [map concat]. by rewrite IH.
    + by destruct names.
    + clear Hne Hp. induction Hnames as [|a l Ha _ IH]; constructor; [|done].
      by repeat split.
    + clear. induction names as [|a l IH]; constructor; [exact I | done].
  - clear. induction names as [|a l IH]; [done|]. cbn [map]. rewrite <- IH.
    f_equal. unfold render, plain_token. cbn. by rewrite append_nil_r.
Qed.

Lemma parse_plain_names_witness :
  ["emails"; "thumbnails"; "emails"] <> [] /\
  Forall (fun s => plain_name s = true) ["emails"; "thumbnails"; "emails"] /\
  parse_queues_str sample_platform "h" "emails,thumbnails,emails" = Ok ["emails"; "thumbnails"; "emails"].
Proof.
  assert (Hp : Forall (fun s => plain_name s = true) ["emails"; "thumbnails"; "emails"]).
  { constructor; [reflexivity|]. constructor; [reflexivity|].
    constructor; [reflexivity|]. constructor. }
  split; [discriminate|]. split; [exact Hp|].
  apply (parse_plain_names sample_platform "h" ["emails"; "thumbnails"; "emails"]);
    [discriminate | exact Hp].
Defined.

(** C5, as stated, fails on the empty list of names: its joined form is the
    empty string, which parses to the list of one empty name. *)
Lemma parse_empty_name_list :
  Forall (fun s => plain_name s = true) [] /\
  parse_queues_str sample_platform "h" (PyStr.join "," []) = Ok [""] /\
  parse_queues_str sample_platform "h" (PyStr.join "," []) <> Ok [].
Proof. split; [constructor|]. split; [reflexivity | discriminate]. Qed.

(** ** Running the Master's methods *)

Section MonadFacts.

Variable env : Env.

Lemma after_nothing w : after w (master w) 0 [] = w.
Proof. destruct w. unfold after. cbn. by rewrite Nat.add_0_r, List.app_nil_r. Qed.

Lemma after_after w m k evs m' k' evs' :
  after (after w m k evs) m' k' evs' = after w m' (k + k') (evs ++ evs').
Proof. unfold after. cbn. by rewrite Nat.add_assoc, <- (assoc_L (++)). Qed.

Lemma kill_run p sig w :
  kill env p sig w =
  (match os_kill env p sig with None => Ok tt | Some errno => Raise (OSError errno) end,
   after w (master w) 0 [EKill p sig]).
Proof.
  unfold kill, bind, emit, after. cbn. rewrite Nat.add_0_r.
  by destruct (os_kill env p sig).
Qed.

Lemma killpg_run p sig w :
  killpg env p sig w =
  (match os_killpg env p sig with None => Ok tt | Some errno => Raise (OSError errno) end,
   after w (master w) 0 [EKillpg p sig]).
Proof.
  unfold killpg, bind, emit, after. cbn. rewrite Nat.add_0_r.
  by destruct (os_killpg env p sig).
Qed.

Lemma start_worker_run q w :
  start_worker env q w =
  (Ok {| obj := spawned w; queue_name := q; pid := fork env (spawned w) |},
   after w (master w) 1
     [EStart {| obj := spawned w; queue_name := q; pid := fork env (spawned w) |}]).
Proof. unfold start_worker, after. by rewrite Nat.add_1_r. Qed.

(** The kills of a [for worker in ws] loop when none of them fails. *)
Lemma for_each_kill_ok sig ws w :
  kills_succeed env sig ws ->
  for_each ws (fun x => kill env (pid x) sig) w
  = (Ok tt, after w (master w) 0 (kill_events sig ws)).
Proof.
  intros Hok. revert w. induction Hok as [|x ws Hx _ IH]; intros w.
  - cbn. unfold ret. by rewrite after_nothing.
  - cbn [for_each]. unfold bind at 1. rewrite kill_run, Hx, IH.
    by rewrite after_after.
Qed.

(** Whatever the kills answer, such a loop leaves the Master and the count
    of started processes alone and records kills of a prefix of [ws]. *)
Lemma for_each_kill_frame sig ws w :
  exists k,
    snd (for_each ws (fun x => kill env (pid x) sig) w)
    = after w (master w) 0 (kill_events sig (take k ws)).
Proof.
  revert w. induction ws as [|x ws IH]; intros w.
  - exists 0%nat. cbn. by rewrite after_nothing.
  - cbn [for_each]. unfold bind at 1. rewrite kill_run.
    destruct (os_kill env (pid x) sig).
    + exists 1%nat. cbn [snd]. by destruct ws.
    + destruct (IH (after w (master w) 0 [EKill (pid x) sig])) as [k Hk].
      exists (S k). rewrite Hk. by rewrite after_after.
Qed.

Lemma stop_workers_ok (ws : option (list Worker)) (kill_flag : bool) (w : World) :
  let targets := match ws with None => workers (master w) | Some l => l end in
  let sig := if kill_flag then SIGKILL else SIGTERM in
  kills_succeed env sig targets ->
  stop_workers env ws kill_flag w = (Ok tt, after w (master w) 0 (kill_events sig targets)).
Proof.
  intros targets sig Hok. unfold stop_workers, bind, get_master.
  by apply for_each_kill_ok.
Qed.

End MonadFacts.

(** ** One pass of the monitor loop *)

Section MonitorFacts.

Variable env : Env.

Lemma set_workers_same m : set_workers (workers m) m = m.
Proof. by destruct m. Qed.

Lemma list_remove_app x kept l :
  x ∉ kept -> list_remove x (kept ++ x :: l) = Some (kept ++ l).
Proof.
  induction kept as [|y kept IH]; intros Hx; cbn.
  - by rewrite decide_True.
  - apply not_elem_of_cons in Hx as [Hne Hx].
    rewrite decide_False by congruence. by rewrite IH.
Qed.

Lemma dead_not_among_living x kept :
  is_alive env x = false -> Forall (fun y => is_alive env y = true) kept -> x ∉ kept.
Proof.
  intros Hd Hk Hin. rewrite Forall_forall in Hk. specialize (Hk _ Hin). congruence.
Qed.

Lemma _kill_pg_run x w :
  _kill_pg env x w =
  (match os_killpg env (pid x) SIGKILL with
   | None => Ok tt
   | Some errno => if decide (errno = ESRCH) then Ok tt else Raise (OSError errno)
   end,
   after w (master w) 0 [EKillpg (pid x) SIGKILL]).
Proof.
  unfold _kill_pg. rewrite killpg_run.
  destruct (os_killpg env (pid x) SIGKILL) as [errno|]; [|done].
  unfold ESRCH. by repeat case_decide.
Qed.

Lemma workers_remove_run x kept l w :
  workers (master w) = kept ++ x :: l -> x ∉ kept ->
  workers_remove x w = (Ok tt, after w (set_workers (kept ++ l) (master w)) 0 []).
Proof.
  intros Hw Hx. unfold workers_remove, bind, get_master.
  rewrite Hw, list_remove_app by done.
  unfold modify_master, after. by rewrite Nat.add_0_r, List.app_nil_r.
Qed.

Lemma _spawn_new_worker_run x kept l w :
  workers (master w) = kept ++ x :: l -> x ∉ kept ->
  let new := {| obj := spawned w; queue_name := queue_name x; pid := fork env (spawned w) |} in
  _spawn_new_worker env x w
  = (Ok tt, after w (set_workers (kept ++ l ++ [new]) (master w)) 1 [EStart new]).
Proof.
  intros Hw Hx new. unfold _spawn_new_worker.
  unfold bind at 1. rewrite start_worker_run. fold new.
  unfold bind at 1. unfold workers_append, modify_master. cbn [master after].
  rewrite (workers_remove_run x kept (l ++ [new])).
  - f_equal. unfold after. cbn. f_equal; [lia | by rewrite List.app_nil_r].
  - cbn. rewrite Hw. by rewrite <- (assoc_L (++)).
  - done.
Qed.

(** A pass while no shutdown is pending: [kept] are the workers already
    visited and found alive, [news] the replacements already appended. *)
Lemma monitor_pass_respawn rest : forall kept news w any,
  workers (master w) = kept ++ rest ++ news ->
  Forall (fun y => is_alive env y = true) kept ->
  shutdown_pending (master w) = false ->
  killpg_not_fatal env rest ->
  monitor_pass env rest any w
  = (Ok (any || bool_decide (rest <> [])),
     after w
       (set_workers (kept ++ living env rest ++ news
                     ++ replacements env (spawned w) (dead env rest)) (master w))
       (length (dead env rest))
       (respawn_events (dead env rest) (replacements env (spawned w) (dead env rest)))).
Proof.
  induction rest as [|x rest IH]; intros kept news w any Hw Hkept Hpend Hpg.
  - cbn. unfold ret. rewrite orb_false_r, List.app_nil_r.
    cbn in Hw. rewrite <- Hw, set_workers_same. by rewrite after_nothing.
  - cbn [monitor_pass]. apply Forall_cons in Hpg as [Hx Hpg].
    rewrite bool_decide_eq_true_2 by done. rewrite orb_true_r.
    unfold living, dead in *.
    destruct (is_alive env x) eqn:Halive.
    + rewrite filter_cons_True, filter_cons_False by congruence.
      rewrite (IH (kept ++ [x]) news w true); try done.
      * rewrite <- !(assoc_L (++)). cbn. do 2 f_equal.
      * by rewrite <- (assoc_L (++)).
      * apply Forall_app. split; [done|]. by constructor.
    + rewrite filter_cons_False, filter_cons_True by congruence.
      unfold bind at 1. cbn [get_master]. rewrite Hpend. cbn [negb].
      unfold bind at 1. rewrite _kill_pg_run.
      assert (Hok : match os_killpg env (pid x) SIGKILL with
                    | None => Ok tt
                    | Some errno => if decide (errno = ESRCH) then Ok tt
                                    else Raise (OSError errno)
                    end = Ok tt).
      { destruct (Hx eq_refl) as [-> | ->]; [done|]. by rewrite decide_True. }
      rewrite Hok. unfold bind at 1.
      rewrite (_spawn_new_worker_run x kept (rest ++ news)); cycle 1.
      { done. }
      { by eapply dead_not_among_living. }
      rewrite after_after. cbn [master after spawned Nat.add].
      rewrite Nat.add_0_r.
      rewrite (IH kept (news ++ [{| obj := spawned w; queue_name := queue_name x;
                                    pid := fork env (spawned w) |}])); try done.
      * rewrite after_after. cbn [spawned after]. rewrite Nat.add_1_r.
        unfold replacements. cbn [map started_workers respawn_events length Nat.add].
        rewrite <- !(assoc_L (++)). cbn. done.
      * cbn. by rewrite <- !(assoc_L (++)).
Qed.

(** A pass while shutdown is pending. *)
Lemma monitor_pass_drain rest : forall kept w any,
  workers (master w) = kept ++ rest ->
  Forall (fun y => is_alive env y = true) kept ->
  shutdown_pending (master w) = true ->
  monitor_pass env rest any w
  = (Ok (any || existsb (is_alive env) rest),
     after w (set_workers (kept ++ living env rest) (master w)) 0 []).
Proof.
  induction rest as [|x rest IH]; intros kept w any Hw Hkept Hpend.
  - cbn. unfold ret. rewrite orb_false_r.
    rewrite <- Hw, set_workers_same. by rewrite after_nothing.
  - cbn [monitor_pass existsb]. unfold living in *.
    destruct (is_alive env x) eqn:Halive.
    + rewrite filter_cons_True by done. rewrite orb_true_r.
      rewrite (IH (kept ++ [x]) w true); try done.
      * by rewrite <- (assoc_L (++)).
      * by rewrite <- (assoc_L (++)).
      * apply Forall_app. split; [done|]. by constructor.
    + rewrite filter_cons_False by congruence.
      unfold bind at 1. cbn [get_master]. rewrite Hpend. cbn [negb].
      unfold bind at 1.
      rewrite (workers_remove_run x kept rest); [|done|by eapply dead_not_among_living].
      rewrite (IH kept _ any); try done.
      by rewrite after_after.
Qed.

End MonitorFacts.

(** ** Counting workers *)

Section PoolFacts.

Variable env : Env.

Lemma started_workers_queue_names n qs :
  map queue_name (started_workers env n qs) = qs.
Proof. revert n. induction qs as [|q qs IH]; intros n; [done|]. cbn. by rewrite IH. Qed.

Lemma started_workers_length n qs : length (started_workers env n qs) = length qs.
Proof. by rewrite <- (started_workers_queue_names n qs) at 2; rewrite length_map. Qed.

Lemma started_workers_obj n qs x :
  x ∈ started_workers env n qs -> (n <= obj x)%nat.
Proof.
  revert n. induction qs as [|q qs IH]; intros n; cbn.
  - by intros ?%elem_of_nil.
  - intros [-> | Hin]%elem_of_cons; [done|]. apply IH in Hin. lia.
Qed.

Lemma living_dead_perm ws : living env ws ++ dead env ws ≡ₚ ws.
Proof.
  unfold living, dead. induction ws as [|x ws IH]; [done|].
  destruct (is_alive env x) eqn:E.
  - rewrite filter_cons_True, filter_cons_False by congruence. cbn. by rewrite IH.
  - rewrite filter_cons_False, filter_cons_True by congruence.
    rewrite <- Permutation_middle. by rewrite IH.
Qed.

Lemma living_none ws : existsb (is_alive env) ws = false -> living env ws = [].
Proof.
  unfold living. induction ws as [|x ws IH]; [done|]. cbn [existsb].
  intros [Hx Hws]%orb_false_elim. rewrite filter_cons_False by congruence. auto.
Qed.

Lemma existsb_dead ws :
  (forall x, x ∈ ws -> is_alive env x = false) -> existsb (is_alive env) ws = false.
Proof.
  induction ws as [|x ws IH]; [done|]. intros H. cbn.
  rewrite (H x) by left. cbn. apply IH. intros y Hy. apply H. by right.
Qed.

Lemma living_subset ws x : x ∈ living env ws -> x ∈ ws.
Proof. unfold living. by intros [_ ?]%list_elem_of_filter. Qed.

End PoolFacts.

(** ** Supervision (C1, C6, C7) *)

(** C1. While [shutdown_pending] is false, one pass of the monitor loop
    over any worker set (the kills of the dead workers' process groups not
    failing fatally) handles each worker found dead by killing its process
    group and then starting one replacement with the same queue name; the
    dead handles are gone from the set, the replacements are appended. The
    size of the pool and the number of workers per queue name are the same
    after the pass, and the loop goes on when the set is not empty. *)
Theorem respawn_on_crash (env : Env) (w : World) :
  let ws := workers (master w) in
  let ds := dead env ws in
  let news := replacements env (spawned w) ds in
  shutdown_pending (master w) = false ->
  killpg_not_fatal env ws ->
  exists w',
    monitor_tick env w = (Ok (bool_decide (ws <> [])), w') /\
    workers (master w') = living env ws ++ news /\
    length news = length ds /\
    map queue_name news = map queue_name ds /\
    trace w' = trace w ++ respawn_events ds news /\
    spawned w' = (spawned w + length ds)%nat /\
    shutdown_pending (master w') = false /\
    length (workers (master w')) = length ws /\
    map queue_name (workers (master w')) ≡ₚ map queue_name ws /\
    (Forall (fun x => (obj x < spawned w)%nat) ws ->
     Forall (fun d => d ∉ workers (master w')) ds).
Proof.
  intros ws ds news Hpend Hpg.
  unfold monitor_tick, bind, get_master. fold ws.
  rewrite (monitor_pass_respawn env ws [] [] w false); try done; cycle 1.
  { by rewrite List.app_nil_r. }
  fold ds news.
  exists (after w (set_workers (living env ws ++ news) (master w)) (length ds)
                (respawn_events ds news)).
  split; [done|]. cbn [after master workers set_workers spawned trace].
  assert (Hq : map queue_name news = map queue_name ds)
    by apply started_workers_queue_names.
  assert (Hlen : length news = length ds).
  { unfold news, replacements. by rewrite started_workers_length, length_map. }
  assert (Hperm : map queue_name (living env ws ++ news) ≡ₚ map queue_name ws).
  { rewrite map_app, Hq, <- map_app. unfold ds. by rewrite living_dead_perm. }
  repeat split; try done.
  - rewrite <- (length_map queue_name), Hperm. by rewrite length_map.
  - intros Hobj. apply Forall_forall. intros d Hd [Hin | Hin]%elem_of_app.
    + apply list_elem_of_filter in Hin as [Ha _].
      apply list_elem_of_filter in Hd as [Hd _]. congruence.
    + apply started_workers_obj in Hin.
      apply list_elem_of_filter in Hd as [_ Hd].
      rewrite Forall_forall in Hobj. specialize (Hobj _ Hd). lia.
Qed.

Lemma respawn_on_crash_witness :
  shutdown_pending (master sample_world) = false /\
  killpg_not_fatal sample_env (workers (master sample_world)) /\
  exists w',
    monitor_tick sample_env sample_world = (Ok true, w') /\
    workers (master w')
    = [worker_a; {| obj := 3; queue_name := "emails"; pid := 103 |};
                 {| obj := 4; queue_name := "thumbs_h"; pid := 104 |}] /\
    trace w'
    = [EKillpg 11 SIGKILL; EStart {| obj := 3; queue_name := "emails"; pid := 103 |};
       EKillpg 12 SIGKILL; EStart {| obj := 4; queue_name := "thumbs_h"; pid := 104 |}].
Proof.
  assert (Hpg : killpg_not_fatal sample_env (workers (master sample_world))).
  { constructor; [discriminate|]. constructor; [by right|]. constructor; [by left|].
    constructor. }
  split; [reflexivity|]. split; [exact Hpg|].
  destruct (respawn_on_crash sample_env sample_world eq_refl Hpg)
    as (w' & Htick & Hws & _ & _ & Htr & _).
  exists w'. split; [exact Htick|]. split; [exact Hws | exact Htr].
Defined.

(** A pass of the loop while shutdown is pending, from the whole set. *)
Lemma monitor_tick_drain (env : Env) (w : World) :
  shutdown_pending (master w) = true ->
  monitor_tick env w
  = (Ok (existsb (is_alive env) (workers (master w))),
     {| master := set_workers (living env (workers (master w))) (master w);
        spawned := spawned w; trace := trace w |}).
Proof.
  intros Hpend. unfold monitor_tick, bind, get_master.
  rewrite (monitor_pass_drain env _ [] w false); try done.
  unfold after. cbn. by rewrite Nat.add_0_r, List.app_nil_r.
Qed.

Lemma wait_for_workers_step (env_at : nat -> Env) (fuel pass : nat) (w : World) :
  _wait_for_workers env_at (S fuel) pass w
  = match monitor_tick (env_at pass) w with
    | (Raise e, w') => Some (Raise e, w')
    | (Ok true, w') => _wait_for_workers env_at fuel (S pass) w'
    | (Ok false, w') => Some (Ok tt, w')
    end.
Proof. reflexivity. Qed.

Lemma wait_for_workers_drain (env_at : nat -> Env) (k : nat) : forall pass w,
  shutdown_pending (master w) = true ->
  (forall x, x ∈ workers (master w) -> is_alive (env_at (pass + k)%nat) x = false) ->
  _wait_for_workers env_at (S k) pass w
  = Some (Ok tt, {| master := set_workers [] (master w);
                    spawned := spawned w; trace := trace w |}).
Proof.
  induction k as [|k IH]; intros pass w Hpend Hdead; rewrite wait_for_workers_step.
  - rewrite monitor_tick_drain by done. rewrite Nat.add_0_r in Hdead.
    rewrite (existsb_dead _ _ Hdead). by rewrite (living_none _ _ (existsb_dead _ _ Hdead)).
  - rewrite monitor_tick_drain by done.
    destruct (existsb (is_alive (env_at pass)) (workers (master w))) eqn:E.
    + rewrite IH; [done|done|]. cbn. intros x Hx%living_subset.
      replace (S (pass + k)) with (pass + S k)%nat by lia. auto.
    + by rewrite (living_none _ _ E).
Qed.



(** C7. [_kill_pg] returns normally when [os.killpg] succeeds and when it
    fails with errno 3 ("no such process"); an OSError with any other errno
    is raised again, and leaves the pass of the monitor loop that made the
    call. *)
Theorem kill_pg_swallows_no_such_process (env : Env) (x : Worker) (w : World) :
  let w1 := {| master := master w; spawned := spawned w;
               trace := trace w ++ [EKillpg (pid x) SIGKILL] |} in
  (os_killpg env (pid x) SIGKILL = None -> _kill_pg env x w = (Ok tt, w1)) /\
  (os_killpg env (pid x) SIGKILL = Some ESRCH -> _kill_pg env x w = (Ok tt, w1)) /\
  (forall errno,
     os_killpg env (pid x) SIGKILL = Some errno -> errno <> ESRCH ->
     _kill_pg env x w = (Raise (OSError errno), w1) /\
     (forall rest any,
        is_alive env x = false -> shutdown_pending (master w) = false ->
        monitor_pass env (x :: rest) any w = (Raise (OSError errno), w1))).
Proof.
  intros w1.
  assert (Hw1 : after w (master w) 0 [EKillpg (pid x) SIGKILL] = w1).
  { unfold after, w1. by rewrite Nat.add_0_r. }
  repeat split.
  - intros H. by rewrite _kill_pg_run, H, Hw1.
  - intros H. by rewrite _kill_pg_run, H, Hw1.
  - rewrite _kill_pg_run, H, Hw1. by rewrite decide_False.
  - intros rest any Hdead Hpend. cbn [monitor_pass]. rewrite Hdead.
    unfold bind at 1. cbn [get_master]. rewrite Hpend. cbn [negb].
    unfold bind at 1. rewrite _kill_pg_run, H, Hw1. by rewrite decide_False.
Qed.

Lemma kill_pg_swallows_no_such_process_witness :
  (os_killpg sample_env (pid worker_c) SIGKILL = None /\
   _kill_pg sample_env worker_c sample_world
   = (Ok tt, {| master := master sample_world; spawned := 3;
                trace := [EKillpg 12 SIGKILL] |})) /\
  (os_killpg sample_env (pid worker_b) SIGKILL = Some ESRCH /\
   _kill_pg sample_env worker_b sample_world
   = (Ok tt, {| master := master sample_world; spawned := 3;
                trace := [EKillpg 11 SIGKILL] |})) /\
  (os_killpg sample_env (pid worker_d) SIGKILL = Some 1 /\ 1 <> ESRCH /\
   _kill_pg sample_env worker_d sample_world
   = (Raise (OSError 1), {| master := master sample_world; spawned := 3;
                            trace := [EKillpg 13 SIGKILL] |})).
Proof.
  split; [|split].
  - split; [reflexivity|].
    exact (proj1 (kill_pg_swallows_no_such_process sample_env worker_c sample_world)
                 eq_refl).
  - split; [reflexivity|].
    exact (proj1 (proj2 (kill_pg_swallows_no_such_process sample_env worker_b sample_world))
                 eq_refl).
  - split; [reflexivity|]. split; [discriminate|].
    refine (proj1 (proj2 (proj2
      (kill_pg_swallows_no_such_process sample_env worker_d sample_world)) 1 eq_refl _)).
    discriminate.
Defined.

(** ** Signals, shutdown and reload (C8, C9, C10) *)

(** C10. [stop_workers], with or without a list of workers and whatever
    [kill] is, changes nothing of the Master: its attributes (the worker set
    and [shutdown_pending] among them) and the count of started processes
    are the same afterwards, whether it returns or raises; all it does is
    [os.kill] on the targets in order (all of them when no kill fails, and
    then it returns). *)
Theorem stop_workers_only_signals (env : Env) (ws : option (list Worker))
    (kill_flag : bool) (w : World) :
  let targets := match ws with None => workers (master w) | Some l => l end in
  let sig := if kill_flag then SIGKILL else SIGTERM in
  let w' := snd (stop_workers env ws kill_flag w) in
  master w' = master w /\
  spawned w' = spawned w /\
  (exists k, trace w' = trace w ++ kill_events sig (take k targets)) /\
  (kills_succeed env sig targets ->
   stop_workers env ws kill_flag w
   = (Ok tt, {| master := master w; spawned := spawned w;
                trace := trace w ++ kill_events sig targets |})).
Proof.
  intros targets sig w'.
  destruct (for_each_kill_frame env sig targets w) as [k Hk].
  assert (Hw' : w' = after w (master w) 0 (kill_events sig (take k targets))) by exact Hk.
  repeat split.
  - by rewrite Hw'.
  - rewrite Hw'. cbn. lia.
  - exists k. by rewrite Hw'.
  - intros Hok. rewrite stop_workers_ok by done. unfold after. by rewrite Nat.add_0_r.
Qed.

Lemma stop_workers_only_signals_witness :
  kills_succeed sample_env SIGTERM [worker_b; worker_c] /\
  stop_workers sample_env (Some [worker_b; worker_c]) false sample_world
  = (Ok tt, {| master := master sample_world; spawned := 3;
               trace := [EKill 11 SIGTERM; EKill 12 SIGTERM] |}).
Proof.
  assert (Hok : kills_succeed sample_env SIGTERM [worker_b; worker_c]).
  { constructor; [reflexivity|]. constructor; [reflexivity|]. constructor. }
  split; [exact Hok|].
  exact (proj2 (proj2 (proj2
    (stop_workers_only_signals sample_env (Some [worker_b; worker_c]) false sample_world)))
    Hok).
Defined.

Lemma shutdown_run (env : Env) (kill_flag : bool) (w : World) :
  let sig := if kill_flag then SIGKILL else SIGTERM in
  kills_succeed env sig (workers (master w)) ->
  (modify_master (set_shutdown_pending true) ;; stop_workers env None kill_flag) w
  = (Ok tt, {| master := set_shutdown_pending true (master w); spawned := spawned w;
               trace := trace w ++ kill_events sig (workers (master w)) |}).
Proof.
  intros sig Hok. unfold bind at 1. cbn [modify_master].
  rewrite stop_workers_ok by done. unfold after. cbn. by rewrite Nat.add_0_r.
Qed.

(** C8. On SIGINT, when stdin is a terminal and no shutdown is pending the
    handler does what the SIGTERM handler does: it sets [shutdown_pending]
    and sends SIGTERM to every worker; otherwise (not a terminal, or shutdown
    already pending) it does what the SIGQUIT handler does: it sets
    [shutdown_pending] and sends SIGKILL to every worker. Two interrupts in a
    row on a terminal therefore send SIGTERM to all workers and then SIGKILL
    to all workers. *)
Theorem sigint_warm_then_cold (env : Env) (signum frame : pyval) (w : World) :
  let ws := workers (master w) in
  let shut sig := {| master := set_shutdown_pending true (master w); spawned := spawned w;
                     trace := trace w ++ kill_events sig ws |} in
  (isatty env = true -> shutdown_pending (master w) = false ->
   _handle_sigint env signum frame w = _handle_sigterm env VNone VNone w) /\
  (isatty env = false \/ shutdown_pending (master w) = true ->
   _handle_sigint env signum frame w = _handle_sigquit env VNone VNone w) /\
  (kills_succeed env SIGTERM ws ->
   _handle_sigterm env VNone VNone w = (Ok tt, shut SIGTERM)) /\
  (kills_succeed env SIGKILL ws ->
   _handle_sigquit env VNone VNone w = (Ok tt, shut SIGKILL)) /\
  (isatty env = true -> shutdown_pending (master w) = false ->
   kills_succeed env SIGTERM ws -> kills_succeed env SIGKILL ws ->
   _handle_sigint env signum frame w = (Ok tt, shut SIGTERM) /\
   _handle_sigint env signum frame (shut SIGTERM)
   = (Ok tt, {| master := set_shutdown_pending true (master w); spawned := spawned w;
                trace := trace w ++ kill_events SIGTERM ws ++ kill_events SIGKILL ws |})).
Proof.
  intros ws shut.
  assert (Hwarm : isatty env = true -> shutdown_pending (master w) = false ->
            _handle_sigint env signum frame w = _handle_sigterm env VNone VNone w).
  { intros Htty Hpend. unfold _handle_sigint, bind at 1. cbn [get_master].
    by rewrite Htty, Hpend. }
  assert (Hterm : kills_succeed env SIGTERM ws ->
            _handle_sigterm env VNone VNone w = (Ok tt, shut SIGTERM)).
  { intros Hok. by apply (shutdown_run env false). }
  assert (Hquit : kills_succeed env SIGKILL ws ->
            _handle_sigquit env VNone VNone w = (Ok tt, shut SIGKILL)).
  { intros Hok. by apply (shutdown_run env true). }
  split; [exact Hwarm|]. split; [|split; [exact Hterm|split; [exact Hquit|]]].
  - intros Hcold. unfold _handle_sigint, bind at 1. cbn [get_master].
    destruct Hcold as [-> | ->]; [done|]. by rewrite andb_false_r.
  - intros Htty Hpend Hok1 Hok2. split; [by rewrite Hwarm, Hterm|].
    unfold _handle_sigint, bind at 1. cbn [get_master shut master shutdown_pending
      set_shutdown_pending]. rewrite andb_false_r.
    unfold _handle_sigquit. rewrite (shutdown_run env true) by done.
    cbn. by rewrite <- (assoc_L (++)).
Qed.

Lemma sigint_warm_then_cold_witness :
  (isatty sample_env = true /\ shutdown_pending (master sample_world) = false /\
   kills_succeed sample_env SIGTERM (workers (master sample_world)) /\
   kills_succeed sample_env SIGKILL (workers (master sample_world)) /\
   _handle_sigint sample_env (VInt 2) VNone sample_world
   = (Ok tt, {| master := set_shutdown_pending true (master sample_world); spawned := 3;
                trace := [EKill 10 SIGTERM; EKill 11 SIGTERM; EKill 12 SIGTERM] |}) /\
   _handle_sigint sample_env (VInt 2) VNone
     {| master := set_shutdown_pending true (master sample_world); spawned := 3;
        trace := [EKill 10 SIGTERM; EKill 11 SIGTERM; EKill 12 SIGTERM] |}
   = (Ok tt, {| master := set_shutdown_pending true (master sample_world); spawned := 3;
                trace := [EKill 10 SIGTERM; EKill 11 SIGTERM; EKill 12 SIGTERM;
                          EKill 10 SIGKILL; EKill 11 SIGKILL; EKill 12 SIGKILL] |})) /\
  (shutdown_pending (master draining_world) = true /\
   kills_succeed sample_env SIGKILL (workers (master draining_world)) /\
   _handle_sigint sample_env (VInt 2) VNone draining_world
   = (Ok tt, {| master := master draining_world; spawned := 3;
                trace := [EKill 10 SIGKILL; EKill 11 SIGKILL; EKill 12 SIGKILL] |})).
Proof.
  assert (Hok : forall sig, kills_succeed sample_env sig (workers (master sample_world))).
  { intros sig. constructor; [reflexivity|]. constructor; [reflexivity|].
    constructor; [reflexivity|]. constructor. }
  split.
  - split; [reflexivity|]. split; [reflexivity|].
    split; [apply Hok|]. split; [apply Hok|].
    exact (proj2 (proj2 (proj2 (proj2
      (sigint_warm_then_cold sample_env (VInt 2) VNone sample_world))))
      eq_refl eq_refl (Hok SIGTERM) (Hok SIGKILL)).
  - split; [reflexivity|]. split; [apply (Hok SIGKILL)|].
    destruct (sigint_warm_then_cold sample_env (VInt 2) VNone draining_world)
      as (_ & Hcold & _ & Hquit & _).
    exact (eq_trans (Hcold (or_intror eq_refl)) (Hquit (Hok SIGKILL))).
Defined.

Section ReloadFacts.

Variable env : Env.

Lemma _get_queues_run w : _get_queues env w = (Ok (resolved_queues env (master w)), w).
Proof.
  unfold _get_queues, resolved_queues, bind, get_master.
  destruct (override_queues (master w)) as [[|c s]|]; try done;
    by destruct (WORKERS (config (master w)) !! hostname env).
Qed.

Lemma start_all_run qs : forall w,
  for_each qs (fun queue => worker <- start_worker env queue ;; workers_append worker) w
  = (Ok tt,
     after w (set_workers (workers (master w) ++ started_workers env (spawned w) qs)
                          (master w))
           (length qs) (map EStart (started_workers env (spawned w) qs))).
Proof.
  induction qs as [|q qs IH]; intros w.
  - cbn. unfold ret. by rewrite List.app_nil_r, set_workers_same, after_nothing.
  - cbn [for_each]. unfold bind at 1. unfold bind at 1. rewrite start_worker_run.
    unfold workers_append, modify_master. rewrite IH.
    f_equal. unfold after. cbn. rewrite Nat.add_1_r.
    f_equal; [by rewrite <- (assoc_L (++)) | lia | by rewrite <- (assoc_L (++))].
Qed.

Lemma _start_workers_run qs w :
  parse_queues_str (platform env) (hostname env) (resolved_queues env (master w)) = Ok qs ->
  _start_workers env w
  = (Ok tt,
     after w (set_workers (workers (master w) ++ started_workers env (spawned w) qs)
                          (master w))
           (length qs) (map EStart (started_workers env (spawned w) qs))).
Proof.
  intros Hqs. unfold _start_workers. unfold bind at 1. rewrite _get_queues_run.
  unfold bind at 1. unfold lift_result. rewrite Hqs. apply start_all_run.
Qed.

End ReloadFacts.

(** C9. With a configuration that can be reloaded (it has a [path]),
    [reload] reloads it, makes the worker set the workers it starts for the
    queue names that the reloaded configuration resolves to (in order, one
    each), and then sends SIGTERM once to each worker of the previous set;
    with a configuration without [path] it starts nothing, keeps the worker
    set, and sends SIGTERM to each of its workers. Both when no kill fails
    and, for the first, when the resolved queues string parses. *)
Theorem reload_restarts_workers (env : Env) (w : World) :
  let old := workers (master w) in
  let m' := set_workers [] (set_config (config_reload env (config (master w))) (master w)) in
  kills_succeed env SIGTERM old ->
  (forall qs,
     path (config (master w)) <> None ->
     parse_queues_str (platform env) (hostname env) (resolved_queues env m') = Ok qs ->
     let news := started_workers env (spawned w) qs in
     reload env w
     = (Ok tt, {| master := set_workers news m';
                  spawned := (spawned w + length qs)%nat;
                  trace := trace w ++ EConfigReload :: map EStart news
                                   ++ kill_events SIGTERM old |}) /\
     map queue_name news = qs) /\
  (path (config (master w)) = None ->
   reload env w
   = (Ok tt, {| master := master w; spawned := spawned w;
                trace := trace w ++ kill_events SIGTERM old |})).
Proof.
  intros old m' Hok. split.
  - intros qs Hpath Hqs news. split; [|apply started_workers_queue_names].
    unfold reload. unfold bind at 1. cbn [get_master]. fold old.
    destruct (path (config (master w))) as [p|]; [|done].
    unfold bind at 1. unfold bind at 1. cbn [emit].
    unfold bind at 1. cbn [modify_master master spawned trace].
    unfold bind at 1. cbn [modify_master master spawned trace].
    rewrite (_start_workers_run env qs) by exact Hqs.
    rewrite stop_workers_ok by exact Hok.
    rewrite after_after. unfold after. cbn. fold news.
    do 2 f_equal; [lia|]. by rewrite <- !(assoc_L (++)).
  - intros Hpath. unfold reload. unfold bind at 1. cbn [get_master]. fold old.
    rewrite Hpath. unfold bind at 1. cbn [ret].
    rewrite stop_workers_ok by exact Hok. unfold after. by rewrite Nat.add_0_r.
Qed.

Lemma reload_restarts_workers_witness :
  (kills_succeed sample_env SIGTERM (workers (master sample_world)) /\
   path (config (master sample_world)) <> None /\
   parse_queues_str sample_platform "h" "2*emails,@thumbs" = Ok ["emails"; "emails"; "thumbs_h"] /\
   reload sample_env sample_world
   = (Ok tt,
      {| master :=
           set_workers [ {| obj := 3; queue_name := "emails"; pid := 103 |};
                         {| obj := 4; queue_name := "emails"; pid := 104 |};
                         {| obj := 5; queue_name := "thumbs_h"; pid := 105 |} ]
                       (master sample_world);
         spawned := 6;
         trace := [ EConfigReload;
                    EStart {| obj := 3; queue_name := "emails"; pid := 103 |};
                    EStart {| obj := 4; queue_name := "emails"; pid := 104 |};
                    EStart {| obj := 5; queue_name := "thumbs_h"; pid := 105 |};
                    EKill 10 SIGTERM; EKill 11 SIGTERM; EKill 12 SIGTERM ] |})) /\
  (kills_succeed sample_env SIGTERM (workers (master pathless_world)) /\
   path (config (master pathless_world)) = None /\
   reload sample_env pathless_world
   = (Ok tt, {| master := master pathless_world; spawned := 3;
                trace := [EKill 10 SIGTERM; EKill 11 SIGTERM; EKill 12 SIGTERM] |})).
Proof.
  assert (Hok : kills_succeed sample_env SIGTERM (workers (master sample_world))).
  { constructor; [reflexivity|]. constructor; [reflexivity|].
    constructor; [reflexivity|]. constructor. }
  assert (Hpath : path (config (master sample_world)) <> None) by discriminate.
  assert (Hqs : parse_queues_str sample_platform "h" "2*emails,@thumbs"
                = Ok ["emails"; "emails"; "thumbs_h"]) by reflexivity.
  split.
  - split; [exact Hok|]. split; [exact Hpath|]. split; [exact Hqs|].
    exact (proj1 (proj1 (reload_restarts_workers sample_env sample_world Hok)
                        ["emails"; "emails"; "thumbs_h"] Hpath Hqs)).
  - split; [exact Hok|]. split; [reflexivity|].
    exact (proj2 (reload_restarts_workers sample_env pathless_world Hok) eq_refl).
Defined.

(** ** Commands of the manager link (C2) *)

(** C2, as the code has it. The command named in a message is looked up
    with getattr among all attributes of the Master; there is no list of
    allowed commands. A name that is no attribute raises AttributeError: the
    Master is left as it was, but nothing catches the exception, which ends
    the [_send_status] thread. A name that is an attribute is called with the
    arguments of the message, whatever it is: [_handle_sigquit], for one, is
    run as a command. An attribute that is no callable raises TypeError, which
    ends the thread as well. *)
Theorem dispatch_by_attribute_lookup (env : Env) (f : string) (args : list pyval)
    (kwargs : list (string * pyval)) (w : World) :
  (getattr_Master env f = None ->
   link_iteration env true (Message f args kwargs) w = (Died (AttributeError f), w)) /\
  (getattr_Master env f = Some Data ->
   link_iteration env true (Message f args kwargs) w = (Died TypeError, w)) /\
  (forall call, getattr_Master env f = Some (Callable call) ->
   link_exchange env true (Message f args kwargs) w = call args kwargs w) /\
  (forall signum frame,
   link_exchange env true (Message "_handle_sigquit" [signum; frame] []) w
   = _handle_sigquit env signum frame w).
Proof.
  unfold link_iteration, link_exchange, dispatch. repeat split.
  - by intros ->.
  - by intros ->.
  - by intros call ->.
Qed.

Lemma dispatch_by_attribute_lookup_witness :
  (getattr_Master sample_env "restart" = None /\
   link_iteration sample_env true (Message "restart" [] []) sample_world
   = (Died (AttributeError "restart"), sample_world)) /\
  (getattr_Master sample_env "workers" = Some Data /\
   link_iteration sample_env true (Message "workers" [] []) sample_world
   = (Died TypeError, sample_world)) /\
  (getattr_Master sample_env "reload" = Some (Callable (call0 (reload sample_env))) /\
   link_exchange sample_env true (Message "reload" [] []) sample_world
   = reload sample_env sample_world).
Proof.
  split; [|split].
  - split; [reflexivity|].
    exact (proj1 (dispatch_by_attribute_lookup sample_env "restart" [] [] sample_world)
                 eq_refl).
  - split; [reflexivity|].
    exact (proj1 (proj2
      (dispatch_by_attribute_lookup sample_env "workers" [] [] sample_world)) eq_refl).
  - split; [reflexivity|].
    etransitivity.
    + exact (proj1 (proj2 (proj2
        (dispatch_by_attribute_lookup sample_env "reload" [] [] sample_world)))
        (call0 (reload sample_env)) eq_refl).
    + reflexivity.
Defined.

(** C2, as stated, fails. A command that is none of the operations meant
    for the manager is carried out: the message naming [_handle_sigquit]
    sets [shutdown_pending] and kills the three workers. And a name that is
    no attribute is not answered by a logged error: the exception ends the
    thread of the link. *)
Lemma dispatch_outside_allow_list :
  link_iteration sample_env true (Message "_handle_sigquit" [VNone; VNone] []) sample_world
  = (Connected,
     {| master := set_shutdown_pending true (master sample_world); spawned := 3;
        trace := [EKill 10 SIGKILL; EKill 11 SIGKILL; EKill 12 SIGKILL] |}) /\
  shutdown_pending (master sample_world) = false /\
  link_iteration sample_env true (Message "restart" [] []) sample_world
  = (Died (AttributeError "restart"), sample_world).
Proof. repeat split; reflexivity. Qed.

(** * Further properties of the parser *)

Section ParserMore.

Implicit Types (s q : string) (P : ascii -> bool).

Lemma chain_counts_fails pf qs e :
  chain_counts pf qs = Raise e -> exists q, q ∈ qs /\ parse_count pf q = Raise e.
Proof.
  induction qs as [|q qs IH]; [done|]. cbn.
  destruct (parse_count pf q) as [l|e'] eqn:E.
  - destruct (chain_counts pf qs) as [ls|e'']; [done|].
    intros [= ->]. destruct (IH eq_refl) as (q' & Hin & Hq').
    exists q'. split; [by right | done].
  - intros [= ->]. exists q. split; [by left | done].
Qed.

Lemma all_chars_lstrip P s : all_chars P s = true -> all_chars P (PyStr.lstrip s) = true.
Proof.
  induction s as [|c s IH]; [done|]. cbn. intros [Hc Hs]%andb_prop.
  destruct (PyStr.is_space c); [auto|]. cbn. by rewrite Hc, Hs.
Qed.

Lemma all_chars_rstrip P s : all_chars P s = true -> all_chars P (PyStr.rstrip s) = true.
Proof.
  induction s as [|c s IH]; [done|]. cbn [PyStr.rstrip all_chars].
  intros [Hc Hs]%andb_prop. specialize (IH Hs).
  destruct (PyStr.rstrip s) as [|c' r].
  - destruct (PyStr.is_space c); [done|]. cbn. by rewrite Hc.
  - change (P c && all_chars P (String c' r) = true). by rewrite Hc, IH.
Qed.

Lemma all_chars_split P sep s :
  all_chars P s = true -> Forall (fun q => all_chars P q = true) (PyStr.split sep s).
Proof.
  induction s as [|c s IH]; [by repeat constructor|]. cbn.
  intros [Hc Hs]%andb_prop. specialize (IH Hs).
  case_decide.
  - by constructor.
  - destruct (PyStr.split sep s) as [|q qs].
    + repeat constructor. cbn. by rewrite Hc.
    + apply Forall_cons in IH as [Hq Hqs]. constructor; [|done]. cbn. by rewrite Hc, Hq.
Qed.

Lemma split_length sep s : length (PyStr.split sep s) = S (count_char sep s).
Proof.
  induction s as [|c s IH]; [done|]. cbn. case_decide.
  - cbn. by rewrite IH.
  - destruct (PyStr.split sep s); [done|]. exact IH.
Qed.

Lemma chain_counts_plain pf qs :
  Forall (fun q => all_chars (differs "*") q = true) qs -> chain_counts pf qs = Ok qs.
Proof.
  induction 1 as [|q qs Hq _ IH]; [done|]. cbn.
  by rewrite (parse_count_plain pf q Hq), IH.
Qed.

Lemma chain_counts_vanish pf qs :
  Forall (fun q => exists n rest, counted q n rest /\ count_fits pf n /\ n <= 0) qs ->
  chain_counts pf qs = Ok [].
Proof.
  induction 1 as [|q qs (n & rest & Hc & Hfit & Hn) _ IH]; [done|]. cbn.
  rewrite (parse_count_counted pf _ _ _ Hc), repeat_list_fits, IH by done.
  by replace (Z.to_nat n) with 0%nat by lia.
Qed.

End ParserMore.

(** X1. [parse_queues_str] raises exactly when one of the tokens has a
    [*] whose left side is no integer literal or is a count beyond the
    limits of the platform; it raises ValueError, OverflowError or
    MemoryError and nothing else, and only ValueError when the counts are
    within the limits. The host name plays no part. *)
Theorem parse_fails_exactly (pf : Platform) (h s : string) :
  (forall e, parse_queues_str pf h s = Raise e ->
     e = ValueError \/ e = OverflowError \/ e = MemoryError) /\
  ((exists e, parse_queues_str pf h s = Raise e) <->
   (exists q, q ∈ tokens s /\
      (miscounted q \/ exists n rest, counted q n rest /\ ~ count_fits pf n))) /\
  (Forall (count_in_range pf) (tokens s) ->
   forall e, parse_queues_str pf h s = Raise e -> e = ValueError).
Proof.
  unfold parse_queues_str. fold (tokens s). split; [|split; [split|]].
  - intros e. destruct (chain_counts pf (tokens s)) as [l|e'] eqn:E; [done|].
    intros [= ->]. apply chain_counts_fails in E as (q & _ & Hq).
    apply parse_count_raises in Hq as [[-> _] | [[-> | ->] _]]; auto.
  - intros [e He]. destruct (chain_counts pf (tokens s)) as [l|e'] eqn:E; [done|].
    apply chain_counts_fails in E as (q & Hin & Hq).
    exists q. split; [done|].
    apply parse_count_raises in Hq as [[_ Hq] | [_ Hq]]; auto.
  - intros (q & Hin & Hq).
    destruct (chain_counts_raises pf q (tokens s) Hin) as [e He].
    + destruct Hq as [(pre & rest & -> & Hpre & Hint) | (n & rest & Hc & Hn)].
      * exists ValueError. by apply parse_count_bad.
      * rewrite (parse_count_counted pf _ _ _ Hc). by apply repeat_list_unfit.
    + exists e. by rewrite He.
  - intros Hrange e.
    destruct (chain_counts pf (tokens s)) as [l|e'] eqn:E; [done|].
    intros [= ->]. by eapply chain_counts_raises_in_range.
Qed.

Lemma parse_fails_exactly_witness :
  (parse_queues_str sample_platform "h" "a,b*c" = Raise ValueError /\
   (ValueError = ValueError \/ ValueError = OverflowError \/ ValueError = MemoryError)) /\
  ((exists q, q ∈ tokens "a,b*c" /\
      (miscounted q \/ exists n rest, counted q n rest /\ ~ count_fits sample_platform n)) /\
   (exists e, parse_queues_str sample_platform "h" "a,b*c" = Raise e)) /\
  ((exists q, q ∈ tokens "a,99999999999999999999*c" /\
      (miscounted q \/ exists n rest, counted q n rest /\ ~ count_fits sample_platform n)) /\
   (exists e, parse_queues_str sample_platform "h" "a,99999999999999999999*c" = Raise e)).
Proof.
  destruct (parse_fails_exactly sample_platform "h" "a,b*c") as (Hv & Hiff & _).
  split; [split; [reflexivity | exact (Hv ValueError eq_refl)]|].
  split.
  - assert (Hq : exists q, q ∈ tokens "a,b*c" /\
        (miscounted q \/
         exists n rest, counted q n rest /\ ~ count_fits sample_platform n)).
    { exists "b*c". split; [apply list_elem_of_further, list_elem_of_here|].
      left. exists "b", "c". repeat split. }
    split; [exact Hq | exact (proj2 Hiff Hq)].
  - assert (Hq : exists q, q ∈ tokens "a,99999999999999999999*c" /\
        (miscounted q \/
         exists n rest, counted q n rest /\ ~ count_fits sample_platform n)).
    { exists "99999999999999999999*c".
      split; [vm_compute; apply list_elem_of_further, list_elem_of_here|].
      right. exists 99999999999999999999, "c". split.
      - exists "99999999999999999999". repeat split.
      - unfold count_fits. cbn. lia. }
    split; [exact Hq|].
    exact (proj2 (proj1 (proj2
      (parse_fails_exactly sample_platform "h" "a,99999999999999999999*c"))) Hq).
Defined.

(** X2. A specification without [*] always parses: it yields the trimmed
    tokens in order, each host-scoped when it starts with [@], one name per
    token, that is one more than the string has commas. *)
Theorem parse_without_multipliers (pf : Platform) (h s : string) :
  all_chars (differs "*") s = true ->
  parse_queues_str pf h s = Ok (map (parse_local h) (tokens s)) /\
  length (map (parse_local h) (tokens s)) = S (count_char "," s).
Proof.
  intros Hs. split.
  - unfold parse_queues_str. fold (tokens s). rewrite chain_counts_plain; [done|].
    unfold tokens. apply Forall_map.
    eapply Forall_impl; [by apply all_chars_split|].
    intros q Hq. cbn. unfold PyStr.strip. by apply all_chars_rstrip, all_chars_lstrip.
  - unfold tokens. by rewrite !length_map, split_length.
Qed.

Lemma parse_without_multipliers_witness :
  all_chars (differs "*") " a ,,@b" = true /\
  parse_queues_str sample_platform "h" " a ,,@b" = Ok ["a"; ""; "b_h"] /\
  length ["a"; ""; "b_h"] = 3%nat.
Proof.
  split; [reflexivity|].
  exact (parse_without_multipliers sample_platform "h" " a ,,@b" eq_refl).
Defined.

(** X3. A token whose count is zero or negative (and index-sized) stands
    for no queue at all: a specification made of such tokens parses to the
    empty list. The count may carry a sign and blanks, as int() reads it. *)
Theorem parse_vanishing_counts (pf : Platform) (h s : string) :
  Forall (fun q => exists n rest, counted q n rest /\ count_fits pf n /\ n <= 0)
         (tokens s) ->
  parse_queues_str pf h s = Ok [].
Proof.
  intros Hs. unfold parse_queues_str. fold (tokens s).
  by rewrite chain_counts_vanish.
Qed.

Lemma parse_vanishing_counts_witness :
  Forall (fun q => exists n rest,
            counted q n rest /\ count_fits sample_platform n /\ n <= 0)
         (tokens "0*a, -2 *b,- 1*c") /\
  parse_queues_str sample_platform "h" "0*a, -2 *b,- 1*c" = Ok [].
Proof.
  assert (H : Forall (fun q => exists n rest,
                        counted q n rest /\ count_fits sample_platform n /\ n <= 0)
                     (tokens "0*a, -2 *b,- 1*c")).
  { change (tokens "0*a, -2 *b,- 1*c") with ["0*a"; "-2 *b"; "- 1*c"].
    constructor; [|constructor; [|constructor; [|constructor]]].
    - exists 0, "a". split; [exists "0"; repeat split|]. unfold count_fits. cbn. lia.
    - exists (-2), "b". split; [exists "-2 "; repeat split|]. unfold count_fits. cbn. lia.
    - exists (-1), "c". split; [exists "- 1"; repeat split|]. unfold count_fits. cbn. lia. }
  split; [exact H|].
  exact (parse_vanishing_counts sample_platform "h" "0*a, -2 *b,- 1*c" H).
Defined.

(** * Further properties of the Master *)

(** ** What every method keeps *)

Section Keeps.

Context {I : World -> Prop}.

Lemma keeps_ret {A} (a : A) : keeps I (ret a).
Proof. by intros w. Qed.

Lemma keeps_raise {A} (e : exn) : keeps I (@raise A e).
Proof. by intros w. Qed.

Lemma keeps_bind {A B} (m : M A) (f : A -> M B) :
  keeps I m -> (forall a, keeps I (f a)) -> keeps I (bind m f).
Proof.
  intros Hm Hf w Hw. unfold bind. specialize (Hm w Hw).
  destruct (m w) as [[a|e] w1]; cbn in *; [by apply Hf | done].
Qed.

Lemma keeps_for_each {A} (l : list A) (body : A -> M unit) :
  (forall x, keeps I (body x)) -> keeps I (for_each l body).
Proof.
  intros Hb. induction l as [|x l IH]; cbn [for_each].
  - apply keeps_ret.
  - apply keeps_bind; [apply Hb | by intros _].
Qed.

Lemma keeps_get_master : keeps I get_master.
Proof. by intros w. Qed.

Lemma keeps_lift_result {A} (r : result A) : keeps I (lift_result r).
Proof. by intros w. Qed.

(** What the invariant has to allow: a call made, a process started and
    its handle appended, a handle removed, the configuration changed, the
    shutdown flag set, the worker set emptied. *)
Hypothesis I_call : forall w e,
  I w -> I {| master := master w; spawned := spawned w; trace := trace w ++ [e] |}.
Hypothesis I_start : forall w q p e,
  I w ->
  I {| master := set_workers (workers (master w) ++ [mkWorker (spawned w) q p]) (master w);
       spawned := S (spawned w); trace := trace w ++ [e] |}.
Hypothesis I_remove : forall w x l,
  I w -> list_remove x (workers (master w)) = Some l ->
  I {| master := set_workers l (master w); spawned := spawned w; trace := trace w |}.
Hypothesis I_config : forall w c,
  I w -> I {| master := set_config c (master w); spawned := spawned w; trace := trace w |}.
Hypothesis I_shutdown : forall w,
  I w -> I {| master := set_shutdown_pending true (master w); spawned := spawned w;
              trace := trace w |}.
Hypothesis I_clear : forall w,
  I w -> I {| master := set_workers [] (master w); spawned := spawned w; trace := trace w |}.

Variable env : Env.

Lemma keeps_kill p sig : keeps I (kill env p sig).
Proof.
  intros w Hw. rewrite kill_run. cbn. unfold after.
  rewrite Nat.add_0_r. by apply I_call.
Qed.

Lemma keeps__kill_pg x : keeps I (_kill_pg env x).
Proof.
  intros w Hw. rewrite _kill_pg_run. cbn. unfold after.
  rewrite Nat.add_0_r. by apply I_call.
Qed.

Lemma keeps_stop_workers ws kill_flag : keeps I (stop_workers env ws kill_flag).
Proof.
  unfold stop_workers. apply keeps_bind; [apply keeps_get_master|].
  intros m. apply keeps_for_each. intros x. apply keeps_kill.
Qed.

Lemma keeps_start_append q :
  keeps I (worker <- start_worker env q ;; workers_append worker).
Proof.
  intros w Hw. unfold bind, start_worker, workers_append, modify_master. cbn.
  by apply I_start.
Qed.

Lemma keeps_workers_remove x : keeps I (workers_remove x).
Proof.
  intros w Hw. unfold workers_remove, bind, get_master.
  destruct (list_remove x (workers (master w))) as [l|] eqn:E; [|done].
  cbn. by eapply I_remove.
Qed.

Lemma keeps__spawn_new_worker x : keeps I (_spawn_new_worker env x).
Proof.
  unfold _spawn_new_worker.
  assert (H : keeps I ((new_worker <- start_worker env (queue_name x) ;;
                        workers_append new_worker) ;; workers_remove x)).
  { apply keeps_bind; [apply keeps_start_append|]. intros _. apply keeps_workers_remove. }
  intros w Hw. specialize (H w Hw). exact H.
Qed.

Lemma keeps_monitor_pass rest : forall any, keeps I (monitor_pass env rest any).
Proof.
  induction rest as [|x rest IH]; intros any; cbn [monitor_pass].
  - apply keeps_ret.
  - destruct (is_alive env x); [apply IH|].
    apply keeps_bind; [apply keeps_get_master|]. intros m.
    destruct (negb (shutdown_pending m)).
    + apply keeps_bind; [apply keeps__kill_pg|]. intros _.
      apply keeps_bind; [apply keeps__spawn_new_worker|]. intros _. apply IH.
    + apply keeps_bind; [apply keeps_workers_remove|]. intros _. apply IH.
Qed.

Lemma keeps_monitor_tick : keeps I (monitor_tick env).
Proof.
  unfold monitor_tick. apply keeps_bind; [apply keeps_get_master|].
  intros m. apply keeps_monitor_pass.
Qed.

Lemma keeps__start_workers : keeps I (_start_workers env).
Proof.
  unfold _start_workers. apply keeps_bind.
  - intros w Hw. by rewrite _get_queues_run.
  - intros s. apply keeps_bind; [apply keeps_lift_result|].
    intros qs. apply keeps_for_each. intros q. apply keeps_start_append.
Qed.

Lemma keeps_shutdown kill_flag :
  keeps I (modify_master (set_shutdown_pending true) ;; stop_workers env None kill_flag).
Proof.
  apply keeps_bind; [|intros _; apply keeps_stop_workers].
  intros w Hw. by apply I_shutdown.
Qed.

Lemma keeps__handle_sigint signum frame : keeps I (_handle_sigint env signum frame).
Proof.
  unfold _handle_sigint. apply keeps_bind; [apply keeps_get_master|]. intros m.
  destruct (isatty env && negb (shutdown_pending m)); apply keeps_shutdown.
Qed.

Lemma keeps_reload : keeps I (reload env).
Proof.
  unfold reload. apply keeps_bind; [apply keeps_get_master|]. intros m.
  apply keeps_bind; [|intros _; apply keeps_stop_workers].
  destruct (path (config m)); [|apply keeps_ret].
  apply keeps_bind; [intros w Hw; by apply I_call|]. intros _.
  apply keeps_bind; [intros w Hw; by apply I_config|]. intros _.
  apply keeps_bind; [intros w Hw; by apply I_clear|]. intros _.
  apply keeps__start_workers.
Qed.

End Keeps.

Lemma keeps_wait_for_workers (I : World -> Prop) (env_at : nat -> Env) :
  (forall env, keeps I (monitor_tick env)) ->
  forall fuel pass w r w',
    I w -> _wait_for_workers env_at fuel pass w = Some (r, w') -> I w'.
Proof.
  intros Htick. induction fuel as [|fuel IH]; intros pass w r w' Hw; [done|].
  rewrite wait_for_workers_step. specialize (Htick (env_at pass) w Hw).
  destruct (monitor_tick (env_at pass) w) as [[[|]|e] w1]; cbn in Htick.
  - by apply IH.
  - by intros [= _ <-].
  - by intros [= _ <-].
Qed.

Lemma list_remove_split x ws l :
  list_remove x ws = Some l -> exists a b, ws = a ++ x :: b /\ l = a ++ b.
Proof.
  revert l. induction ws as [|y ws IH]; intros l; [done|]. cbn.
  destruct (decide (y = x)) as [->|Hne].
  - intros [= <-]. by exists [], ws.
  - destruct (list_remove x ws) as [r|]; [|done]. intros [= <-].
    destruct (IH r eq_refl) as (a & b & -> & ->). by exists (y :: a), b.
Qed.

Section Invariants.

Lemma pending_call w e :
  pending w -> pending {| master := master w; spawned := spawned w; trace := trace w ++ [e] |}.
Proof. done. Qed.

Lemma distinct_start w q p e :
  distinct_objects w ->
  distinct_objects
    {| master := set_workers (workers (master w) ++ [mkWorker (spawned w) q p]) (master w);
       spawned := S (spawned w); trace := trace w ++ [e] |}.
Proof.
  intros [Hnd Hlt]. split; cbn.
  - rewrite map_app. apply NoDup_app. split; [done|]. split; [|apply NoDup_singleton].
    intros n Hn ->%list_elem_of_singleton. cbn in Hn.
    apply list_elem_of_fmap in Hn as (x & Hx & Hin).
    rewrite Forall_forall in Hlt. specialize (Hlt _ Hin). lia.
  - apply Forall_app. split.
    + eapply Forall_impl; [exact Hlt|]. intros x Hx. cbn in *. lia.
    + constructor; [cbn; lia | constructor].
Qed.

Lemma distinct_remove w x l :
  distinct_objects w -> list_remove x (workers (master w)) = Some l ->
  distinct_objects
    {| master := set_workers l (master w); spawned := spawned w; trace := trace w |}.
Proof.
  intros [Hnd Hlt] (a & b & Hw & ->)%list_remove_split. rewrite Hw in *.
  split; cbn.
  - rewrite map_app in *. cbn in Hnd. rewrite NoDup_app in *.
    destruct Hnd as (Ha & Hab & Hb). split; [done|]. split.
    + intros n Hn Hnb. apply (Hab n Hn). by right.
    + by apply NoDup_cons in Hb as [_ ?].
  - apply Forall_app in Hlt as [Ha Hb]. apply Forall_cons in Hb as [_ Hb].
    by apply Forall_app.
Qed.

End Invariants.

(** X4. [shutdown_pending], once true, stays true: through a pass of the
    monitor loop, through the whole loop, through [stop_workers],
    [_start_workers], [reload] and the four signal handlers, whether they
    return or raise. *)
Theorem shutdown_pending_never_reset (env : Env) (w : World) :
  pending w ->
  pending (snd (monitor_tick env w)) /\
  (forall ws kill_flag, pending (snd (stop_workers env ws kill_flag w))) /\
  pending (snd (_start_workers env w)) /\
  pending (snd (reload env w)) /\
  (forall signum frame,
     pending (snd (_handle_sigterm env signum frame w)) /\
     pending (snd (_handle_sigquit env signum frame w)) /\
     pending (snd (_handle_sigint env signum frame w)) /\
     pending (snd (_handle_sighup env signum frame w))) /\
  (forall env_at fuel pass r w',
     _wait_for_workers env_at fuel pass w = Some (r, w') -> pending w').
Proof.
  intros Hw.
  assert (Hstart : forall w q p e, pending w -> pending
    {| master := set_workers (workers (master w) ++ [mkWorker (spawned w) q p]) (master w);
       spawned := S (spawned w); trace := trace w ++ [e] |}) by done.
  assert (Hremove : forall w x l, pending w -> list_remove x (workers (master w)) = Some l ->
    pending {| master := set_workers l (master w); spawned := spawned w;
               trace := trace w |}) by done.
  assert (Hconfig : forall w c, pending w -> pending
    {| master := set_config c (master w); spawned := spawned w; trace := trace w |}) by done.
  assert (Hshut : forall w, pending w -> pending
    {| master := set_shutdown_pending true (master w); spawned := spawned w;
       trace := trace w |}) by done.
  assert (Hclear : forall w, pending w -> pending
    {| master := set_workers [] (master w); spawned := spawned w; trace := trace w |})
    by done.
  split; [by apply (keeps_monitor_tick pending_call Hstart Hremove)|].
  split; [intros ws k; by apply (keeps_stop_workers pending_call)|].
  split; [by apply (keeps__start_workers Hstart)|].
  split; [by apply (keeps_reload pending_call Hstart Hconfig Hclear)|].
  split.
  - intros signum frame. split; [|split; [|split]].
    + by apply (keeps_shutdown pending_call Hshut env false).
    + by apply (keeps_shutdown pending_call Hshut env true).
    + by apply (keeps__handle_sigint pending_call Hshut).
    + by apply (keeps_reload pending_call Hstart Hconfig Hclear).
  - intros env_at fuel pass r w' Hloop.
    eapply (keeps_wait_for_workers pending); [|exact Hw|exact Hloop].
    intros env'. by apply (keeps_monitor_tick pending_call Hstart Hremove).
Qed.

Lemma shutdown_pending_never_reset_witness :
  pending draining_world /\
  pending (snd (reload sample_env draining_world)) /\
  pending (snd (monitor_tick sample_env draining_world)).
Proof.
  split; [reflexivity|].
  destruct (shutdown_pending_never_reset sample_env draining_world eq_refl)
    as (Htick & _ & _ & Hreload & _).
  split; [exact Hreload | exact Htick].
Defined.

(** X5. The handles in the worker set are pairwise distinct objects, all
    created before the next one to be created; this holds of a new Master
    and is kept by a pass of the monitor loop, by the whole loop, by
    [stop_workers], [_start_workers], [reload] and the signal handlers,
    whether they return or raise. So [self.workers.remove(worker)] never
    removes another handle than the one meant. *)
Theorem worker_handles_stay_distinct (env : Env) (w : World) :
  (forall c n t, distinct_objects {| master := Master_init c; spawned := n; trace := t |}) /\
  (distinct_objects w ->
   distinct_objects (snd (monitor_tick env w)) /\
   (forall ws kill_flag, distinct_objects (snd (stop_workers env ws kill_flag w))) /\
   distinct_objects (snd (_start_workers env w)) /\
   distinct_objects (snd (reload env w)) /\
   (forall signum frame,
      distinct_objects (snd (_handle_sigterm env signum frame w)) /\
      distinct_objects (snd (_handle_sigquit env signum frame w)) /\
      distinct_objects (snd (_handle_sigint env signum frame w))) /\
   (forall env_at fuel pass r w',
      _wait_for_workers env_at fuel pass w = Some (r, w') -> distinct_objects w')).
Proof.
  assert (Hcall : forall w e, distinct_objects w -> distinct_objects
    {| master := master w; spawned := spawned w; trace := trace w ++ [e] |}) by done.
  assert (Hconfig : forall w c, distinct_objects w -> distinct_objects
    {| master := set_config c (master w); spawned := spawned w; trace := trace w |})
    by done.
  assert (Hshut : forall w, distinct_objects w -> distinct_objects
    {| master := set_shutdown_pending true (master w); spawned := spawned w;
       trace := trace w |}) by done.
  assert (Hclear : forall w, distinct_objects w -> distinct_objects
    {| master := set_workers [] (master w); spawned := spawned w; trace := trace w |}).
  { intros w0 _. split; cbn; [apply NoDup_nil_2 | constructor]. }
  split.
  { intros c n t. split; cbn; [apply NoDup_nil_2 | constructor]. }
  intros Hw.
  split; [by apply (keeps_monitor_tick Hcall distinct_start distinct_remove)|].
  split; [intros ws k; by apply (keeps_stop_workers Hcall)|].
  split; [by apply (keeps__start_workers distinct_start)|].
  split; [by apply (keeps_reload Hcall distinct_start Hconfig Hclear)|].
  split.
  - intros signum frame. split; [|split].
    + by apply (keeps_shutdown Hcall Hshut env false).
    + by apply (keeps_shutdown Hcall Hshut env true).
    + by apply (keeps__handle_sigint Hcall Hshut).
  - intros env_at fuel pass r w' Hloop.
    eapply (keeps_wait_for_workers distinct_objects); [|exact Hw|exact Hloop].
    intros env'. by apply (keeps_monitor_tick Hcall distinct_start distinct_remove).
Qed.

Lemma worker_handles_stay_distinct_witness :
  distinct_objects sample_world /\
  distinct_objects (snd (monitor_tick sample_env sample_world)) /\
  distinct_objects (snd (reload sample_env sample_world)).
Proof.
  assert (H : distinct_objects sample_world).
  { split; cbn.
    - apply NoDup_cons_2; [rewrite !elem_of_cons, elem_of_nil; lia|].
      apply NoDup_cons_2; [rewrite !elem_of_cons, elem_of_nil; lia|].
      apply NoDup_cons_2; [rewrite elem_of_nil; tauto|].
      apply NoDup_nil_2.
    - repeat (constructor; [cbn; lia|]). constructor. }
  split; [exact H|].
  destruct (proj2 (worker_handles_stay_distinct sample_env sample_world) H)
    as (Htick & _ & _ & Hreload & _).
  split; [exact Htick | exact Hreload].
Defined.

(** ** The monitor loop as a whole *)

Section LoopFacts.

Variable env : Env.

Lemma bind_Ok {A B} (m : M A) (f : A -> M B) w b w' :
  bind m f w = (Ok b, w') -> exists a w1, m w = (Ok a, w1) /\ f a w1 = (Ok b, w').
Proof.
  unfold bind. destruct (m w) as [[a|e] w1]; [|done]. intros H. by exists a, w1.
Qed.

(** A pass that has seen a worker alive, or replaced one, reports so. *)
Lemma monitor_pass_true rest : forall w b w',
  monitor_pass env rest true w = (Ok b, w') -> b = true.
Proof.
  induction rest as [|x rest IH]; intros w b w'; cbn [monitor_pass].
  - by intros [= <- _].
  - destruct (is_alive env x); [apply IH|].
    intros (m & w1 & _ & H)%bind_Ok.
    destruct (negb (shutdown_pending m)).
    + apply bind_Ok in H as (_ & w2 & _ & H). apply bind_Ok in H as (_ & w3 & _ & H).
      by eapply IH.
    + apply bind_Ok in H as (_ & w2 & _ & H). by eapply IH.
Qed.

(** A pass that reports no worker alive has removed every worker it
    visited. *)
Lemma monitor_pass_false rest : forall tail w w',
  workers (master w) = rest ++ tail ->
  monitor_pass env rest false w = (Ok false, w') ->
  workers (master w') = tail.
Proof.
  induction rest as [|x rest IH]; intros tail w w' Hw; cbn [monitor_pass].
  - by intros [= <-].
  - destruct (is_alive env x); [by intros ?%monitor_pass_true|].
    intros (m & w1 & [= <- <-] & H)%bind_Ok.
    destruct (negb (shutdown_pending (master w))).
    + apply bind_Ok in H as (_ & w2 & _ & H). apply bind_Ok in H as (_ & w3 & _ & H).
      by apply monitor_pass_true in H.
    + apply bind_Ok in H as ([] & w2 & Hrm & H). revert Hrm.
      unfold workers_remove, bind, get_master. rewrite Hw. cbn [list_remove app].
      rewrite decide_True by done. cbn. intros [= Hw2].
      apply (IH tail) in H; [done|]. by rewrite <- Hw2.
Qed.

Lemma monitor_tick_false w w' :
  monitor_tick env w = (Ok false, w') -> workers (master w') = [].
Proof.
  unfold monitor_tick. intros (m & w1 & [= <- <-] & H)%bind_Ok.
  apply (monitor_pass_false _ []) in H; [done|]. by rewrite List.app_nil_r.
Qed.

(** A pass over workers that are all alive. *)
Lemma monitor_pass_healthy rest : forall any w,
  Forall (fun x => is_alive env x = true) rest ->
  monitor_pass env rest any w = (Ok (any || bool_decide (rest <> [])), w).
Proof.
  induction rest as [|x rest IH]; intros any w Hall; cbn [monitor_pass].
  - by rewrite orb_false_r.
  - apply Forall_cons in Hall as [-> Hall]. rewrite IH by done. cbn [orb].
    rewrite (bool_decide_eq_true_2 (x :: rest <> [])) by done. by rewrite orb_true_r.
Qed.

Lemma monitor_tick_respawn w :
  shutdown_pending (master w) = false ->
  killpg_not_fatal env (workers (master w)) ->
  monitor_tick env w
  = (Ok (bool_decide (workers (master w) <> [])),
     after w
       (set_workers (living env (workers (master w))
                     ++ replacements env (spawned w) (dead env (workers (master w))))
                    (master w))
       (length (dead env (workers (master w))))
       (respawn_events (dead env (workers (master w)))
                       (replacements env (spawned w) (dead env (workers (master w)))))).
Proof.
  intros Hpend Hpg. unfold monitor_tick, bind, get_master.
  rewrite (monitor_pass_respawn env _ [] [] w false); try done.
  by rewrite List.app_nil_r.
Qed.

Lemma respawned_length ws n :
  length (living env ws ++ replacements env n (dead env ws)) = length ws.
Proof.
  rewrite length_app. unfold replacements.
  rewrite started_workers_length, length_map, <- length_app.
  by rewrite (living_dead_perm env ws).
Qed.

End LoopFacts.

Lemma wait_for_workers_returns_empty (env_at : nat -> Env) (fuel : nat) : forall pass w w',
  _wait_for_workers env_at fuel pass w = Some (Ok tt, w') -> workers (master w') = [].
Proof.
  induction fuel as [|fuel IH]; intros pass w w'; [done|].
  rewrite wait_for_workers_step.
  destruct (monitor_tick (env_at pass) w) as [[[|]|e] w1] eqn:E.
  - apply IH.
  - intros [= <-]. by eapply monitor_tick_false.
  - done.
Qed.

(** X6. When [_wait_for_workers] returns, the worker set is empty: the
    loop is left only after a pass in which every worker was found dead and
    removed. *)
Theorem loop_returns_with_no_worker (env_at : nat -> Env) (fuel pass : nat) (w w' : World) :
  _wait_for_workers env_at fuel pass w = Some (Ok tt, w') ->
  workers (master w') = [].
Proof. apply wait_for_workers_returns_empty. Qed.

Lemma loop_returns_with_no_worker_witness :
  _wait_for_workers dying_env 3 0 draining_world
  = Some (Ok tt, {| master := set_workers [] (master draining_world);
                    spawned := 3; trace := [] |}) /\
  workers (set_workers [] (master draining_world)) = [].
Proof.
  assert (H : _wait_for_workers dying_env 3 0 draining_world
              = Some (Ok tt, {| master := set_workers [] (master draining_world);
                                spawned := 3; trace := [] |})) by reflexivity.
  split; [exact H|].
  exact (loop_returns_with_no_worker dying_env 3 0 draining_world _ H).
Defined.

(** X7. While no shutdown is pending and the worker set is not empty,
    the monitor loop does not return, however many passes it makes and
    whichever workers die (no kill of a process group failing fatally):
    every pass ends with as many workers as it began with. *)
Theorem loop_runs_until_shutdown (env_at : nat -> Env) (fuel pass : nat) (w : World) :
  shutdown_pending (master w) = false ->
  workers (master w) <> [] ->
  (forall n p, os_killpg (env_at n) p SIGKILL = None \/
               os_killpg (env_at n) p SIGKILL = Some ESRCH) ->
  _wait_for_workers env_at fuel pass w = None.
Proof.
  intros Hpend Hne Hpg. revert pass w Hpend Hne.
  induction fuel as [|fuel IH]; intros pass w Hpend Hne; [done|].
  rewrite wait_for_workers_step, monitor_tick_respawn; try done.
  - rewrite bool_decide_eq_true_2 by done. apply IH; [done|].
    cbn. intros Hnil. apply Hne.
    apply (f_equal length) in Hnil. rewrite respawned_length in Hnil.
    by destruct (workers (master w)).
  - apply Forall_forall. intros x _ _. apply Hpg.
Qed.

Lemma loop_runs_until_shutdown_witness :
  shutdown_pending (master sample_world) = false /\
  workers (master sample_world) <> [] /\
  (forall n p, os_killpg (dying_env n) p SIGKILL = None \/
               os_killpg (dying_env n) p SIGKILL = Some ESRCH) /\
  _wait_for_workers dying_env 50 0 sample_world = None.
Proof.
  assert (Hpg : forall n p, os_killpg (dying_env n) p SIGKILL = None \/
                            os_killpg (dying_env n) p SIGKILL = Some ESRCH)
    by (intros n p; by left).
  split; [reflexivity|]. split; [discriminate|]. split; [exact Hpg|].
  apply (loop_runs_until_shutdown dying_env 50 0 sample_world eq_refl); [discriminate|].
  exact Hpg.
Defined.

(** X8. A pass of the monitor loop in which every worker is alive does
    nothing, pending shutdown or not: no call is made and the Master is as
    before; it reports a worker alive unless the set is empty. *)
Theorem healthy_pass_changes_nothing (env : Env) (w : World) :
  Forall (fun x => is_alive env x = true) (workers (master w)) ->
  monitor_tick env w = (Ok (bool_decide (workers (master w) <> [])), w).
Proof.
  intros Hall. unfold monitor_tick, bind, get_master.
  by rewrite monitor_pass_healthy.
Qed.

Lemma healthy_pass_changes_nothing_witness :
  Forall (fun x => is_alive (dying_env 0) x = true) [worker_b; worker_c] /\
  monitor_tick (dying_env 0)
    {| master := set_workers [worker_b; worker_c] (master sample_world);
       spawned := 3; trace := [] |}
  = (Ok true, {| master := set_workers [worker_b; worker_c] (master sample_world);
                 spawned := 3; trace := [] |}).
Proof.
  assert (H : Forall (fun x => is_alive (dying_env 0) x = true) [worker_b; worker_c]).
  { constructor; [reflexivity|]. constructor; [reflexivity|]. constructor. }
  split; [exact H|].
  exact (healthy_pass_changes_nothing (dying_env 0)
           {| master := set_workers [worker_b; worker_c] (master sample_world);
              spawned := 3; trace := [] |} H).
Defined.

(** ** Starting and stopping workers *)

Section StartStopFacts.

Variable env : Env.

Lemma for_each_kill_fail sig pre x post errno w :
  kills_succeed env sig pre ->
  os_kill env (pid x) sig = Some errno ->
  for_each (pre ++ x :: post) (fun y => kill env (pid y) sig) w
  = (Raise (OSError errno), after w (master w) 0 (kill_events sig (pre ++ [x]))).
Proof.
  intros Hpre Hx. revert w. induction Hpre as [|y pre Hy _ IH]; intros w.
  - cbn [app for_each]. unfold bind. by rewrite kill_run, Hx.
  - cbn [app for_each]. unfold bind at 1. rewrite kill_run, Hy, IH.
    by rewrite after_after.
Qed.

Lemma list_remove_absent x l : x ∉ l -> list_remove x l = None.
Proof.
  induction l as [|y l IH]; [done|]. intros [Hne Hl]%not_elem_of_cons. cbn.
  rewrite decide_False by congruence. by rewrite IH.
Qed.

Lemma run_startup_run now cpus w :
  run_startup env now cpus w
  = _start_workers env {| master := startup_master now cpus (master w);
                          spawned := spawned w; trace := trace w |}.
Proof.
  unfold run_startup, startup_master. unfold bind at 1. cbn [modify_master].
  unfold bind at 1. cbn [get_master master set_started config].
  unfold bind at 1. by destruct (MAX_LOAD (config (master w))).
Qed.

End StartStopFacts.

(** X9. [stop_workers] gives up at the first worker whose [os.kill]
    fails: the OSError leaves the method, and the workers after that one in
    the list get no signal. *)
Theorem stop_workers_stops_at_first_failure (env : Env) (pre post : list Worker)
    (x : Worker) (kill_flag : bool) (errno : Z) (w : World) :
  let sig := if kill_flag then SIGKILL else SIGTERM in
  kills_succeed env sig pre ->
  os_kill env (pid x) sig = Some errno ->
  stop_workers env (Some (pre ++ x :: post)) kill_flag w
  = (Raise (OSError errno),
     {| master := master w; spawned := spawned w;
        trace := trace w ++ kill_events sig (pre ++ [x]) |}).
Proof.
  intros sig Hpre Hx. unfold stop_workers, bind, get_master.
  rewrite (for_each_kill_fail env sig pre x post errno) by done.
  unfold after. by rewrite Nat.add_0_r.
Qed.

Lemma stop_workers_stops_at_first_failure_witness :
  kills_succeed stale_env SIGTERM [worker_a] /\
  os_kill stale_env (pid worker_b) SIGTERM = Some 3 /\
  stop_workers stale_env (Some [worker_a; worker_b; worker_c]) false sample_world
  = (Raise (OSError 3),
     {| master := master sample_world; spawned := 3;
        trace := [EKill 10 SIGTERM; EKill 11 SIGTERM] |}).
Proof.
  assert (H : kills_succeed stale_env SIGTERM [worker_a]).
  { constructor; [reflexivity | constructor]. }
  split; [exact H|]. split; [reflexivity|].
  exact (stop_workers_stops_at_first_failure stale_env [worker_a] [worker_c] worker_b
           false 3 sample_world H eq_refl).
Defined.

(** X10. [_start_workers] parses the queues string before it starts any
    worker. When the string does not parse, the ValueError leaves the method
    and nothing was started or changed. When it parses, one worker per name
    is started, in order, and appended to the workers there are. *)
Theorem start_workers_all_or_nothing (env : Env) (w : World) :
  (forall e,
     parse_queues_str (platform env) (hostname env) (resolved_queues env (master w)) = Raise e ->
     _start_workers env w = (Raise e, w)) /\
  (forall qs,
     parse_queues_str (platform env) (hostname env) (resolved_queues env (master w)) = Ok qs ->
     let news := started_workers env (spawned w) qs in
     _start_workers env w
     = (Ok tt, {| master := set_workers (workers (master w) ++ news) (master w);
                  spawned := (spawned w + length qs)%nat;
                  trace := trace w ++ map EStart news |}) /\
     map queue_name news = qs /\
     map obj news = seq (spawned w) (length qs)).
Proof.
  split.
  - intros e He. unfold _start_workers. unfold bind at 1. rewrite _get_queues_run.
    unfold bind, lift_result. by rewrite He.
  - intros qs Hqs news. split; [by apply _start_workers_run|].
    split; [apply started_workers_queue_names|].
    unfold news. generalize (spawned w). clear.
    induction qs as [|q qs IH]; intros n; [done|]. cbn. by rewrite IH.
Qed.

Lemma start_workers_all_or_nothing_witness :
  (parse_queues_str sample_platform "h" "2*x,y*z" = Raise ValueError /\
   _start_workers sample_env (overridden_world "2*x,y*z")
   = (Raise ValueError, overridden_world "2*x,y*z")) /\
  (parse_queues_str sample_platform "h" "2*x,@y" = Ok ["x"; "x"; "y_h"] /\
   _start_workers sample_env (overridden_world "2*x,@y")
   = (Ok tt,
      {| master :=
           set_workers [ {| obj := 0; queue_name := "x"; pid := 100 |};
                         {| obj := 1; queue_name := "x"; pid := 101 |};
                         {| obj := 2; queue_name := "y_h"; pid := 102 |} ]
                       (master (overridden_world "2*x,@y"));
         spawned := 3;
         trace := [ EStart {| obj := 0; queue_name := "x"; pid := 100 |};
                    EStart {| obj := 1; queue_name := "x"; pid := 101 |};
                    EStart {| obj := 2; queue_name := "y_h"; pid := 102 |} ] |})).
Proof.
  split.
  - split; [reflexivity|].
    exact (proj1 (start_workers_all_or_nothing sample_env (overridden_world "2*x,y*z"))
                 ValueError eq_refl).
  - split; [reflexivity|].
    exact (proj1 (proj2 (start_workers_all_or_nothing sample_env
                           (overridden_world "2*x,@y")) ["x"; "x"; "y_h"] eq_refl)).
Defined.

(** X11. [_get_queues] never raises and changes nothing. A non-empty
    override wins over the configuration; without one (none, or the empty
    string) the entry of the host in [WORKERS] is used; and when the host has
    no entry the answer is "kuyruk", so that [_start_workers] starts exactly
    one worker, on the queue "kuyruk". *)
Theorem get_queues_fallback (env : Env) (w : World) :
  (forall c s, override_queues (master w) = Some (String c s) ->
     _get_queues env w = (Ok (String c s), w)) /\
  (override_queues (master w) = None \/ override_queues (master w) = Some "" ->
   (forall qs, WORKERS (config (master w)) !! hostname env = Some qs ->
      _get_queues env w = (Ok qs, w)) /\
   (WORKERS (config (master w)) !! hostname env = None ->
      _get_queues env w = (Ok "kuyruk", w) /\
      let new := {| obj := spawned w; queue_name := "kuyruk";
                    pid := fork env (spawned w) |} in
      _start_workers env w
      = (Ok tt, {| master := set_workers (workers (master w) ++ [new]) (master w);
                   spawned := S (spawned w);
                   trace := trace w ++ [EStart new] |}))).
Proof.
  split.
  - intros c s Ho. rewrite _get_queues_run. unfold resolved_queues. by rewrite Ho.
  - intros Ho.
    assert (Hr : resolved_queues env (master w)
                 = default "kuyruk" (WORKERS (config (master w)) !! hostname env)).
    { unfold resolved_queues. by destruct Ho as [-> | ->]. }
    split.
    + intros qs Hqs. by rewrite _get_queues_run, Hr, Hqs.
    + intros Hnone. rewrite Hnone in Hr. cbn in Hr. split.
      * by rewrite _get_queues_run, Hr.
      * intros new. rewrite (_start_workers_run env ["kuyruk"]).
        -- unfold after. cbn. by rewrite Nat.add_1_r.
        -- by rewrite Hr.
Qed.

Lemma get_queues_fallback_witness :
  (override_queues (master (overridden_world "a,b")) = Some "a,b" /\
   _get_queues sample_env (overridden_world "a,b") = (Ok "a,b", overridden_world "a,b")) /\
  (override_queues (master sample_world) = None /\
   WORKERS (config (master sample_world)) !! hostname sample_env = Some "2*emails,@thumbs" /\
   _get_queues sample_env sample_world = (Ok "2*emails,@thumbs", sample_world)) /\
  (override_queues (master fresh_world) = None /\
   WORKERS (config (master fresh_world)) !! hostname sample_env = None /\
   _start_workers sample_env fresh_world
   = (Ok tt, {| master := set_workers [ {| obj := 0; queue_name := "kuyruk"; pid := 100 |} ]
                                      (master fresh_world);
                spawned := 1;
                trace := [EStart {| obj := 0; queue_name := "kuyruk"; pid := 100 |}] |})).
Proof.
  split; [|split].
  - split; [reflexivity|].
    exact (proj1 (get_queues_fallback sample_env (overridden_world "a,b")) _ _ eq_refl).
  - split; [reflexivity|]. split; [reflexivity|].
    exact (proj1 (proj2 (get_queues_fallback sample_env sample_world) (or_introl eq_refl))
                 "2*emails,@thumbs" eq_refl).
  - split; [reflexivity|]. split; [reflexivity|].
    exact (proj2 (proj2 (proj2 (get_queues_fallback sample_env fresh_world)
                                (or_introl eq_refl)) eq_refl)).
Defined.

(** X12. [reload] with a configuration that can be reloaded, when the
    queues string of the reloaded configuration does not parse: the
    ValueError leaves [reload] after the worker set was emptied and before
    any signal was sent. The old workers get no SIGTERM and are no longer in
    the worker set. *)
Theorem reload_with_bad_queues_drops_workers (env : Env) (e : exn) (w : World) :
  let m' := set_workers [] (set_config (config_reload env (config (master w))) (master w)) in
  path (config (master w)) <> None ->
  parse_queues_str (platform env) (hostname env) (resolved_queues env m') = Raise e ->
  reload env w
  = (Raise e, {| master := m'; spawned := spawned w; trace := trace w ++ [EConfigReload] |}).
Proof.
  intros m' Hpath He. unfold reload. unfold bind at 1. cbn [get_master].
  destruct (path (config (master w))); [|done].
  unfold bind at 1. unfold bind at 1. cbn [emit].
  unfold bind at 1. cbn [modify_master master spawned trace].
  unfold bind at 1. cbn [modify_master master spawned trace].
  unfold _start_workers. unfold bind at 1. rewrite _get_queues_run.
  unfold bind, lift_result. cbn [master]. fold m'. by rewrite He.
Qed.

Lemma reload_with_bad_queues_drops_workers_witness :
  let w := {| master := set_workers [worker_a; worker_b] (master (overridden_world "y*z"));
              spawned := 2; trace := [] |} in
  path (config (master w)) <> None /\
  parse_queues_str sample_platform "h" "y*z" = Raise ValueError /\
  reload sample_env w
  = (Raise ValueError,
     {| master := master (overridden_world "y*z"); spawned := 2;
        trace := [EConfigReload] |}).
Proof.
  intros w. split; [discriminate|]. split; [reflexivity|].
  refine (reload_with_bad_queues_drops_workers sample_env ValueError w _ eq_refl).
  discriminate.
Defined.

(** X13. A warm shutdown followed by the exit of the workers ends the
    monitor loop: after [_handle_sigterm] (every SIGTERM delivered), a loop
    during which every worker is found dead in some pass returns by the end
    of that pass with an empty worker set, and all the Master has done is
    sending the SIGTERMs; no worker was started again. *)
Theorem warm_shutdown_then_exit (env : Env) (env_at : nat -> Env) (signum frame : pyval)
    (pass k : nat) (w : World) :
  kills_succeed env SIGTERM (workers (master w)) ->
  (forall x, x ∈ workers (master w) -> is_alive (env_at (pass + k)%nat) x = false) ->
  exists w1,
    _handle_sigterm env signum frame w = (Ok tt, w1) /\
    _wait_for_workers env_at (S k) pass w1
    = Some (Ok tt, {| master := set_workers [] (set_shutdown_pending true (master w));
                      spawned := spawned w;
                      trace := trace w ++ kill_events SIGTERM (workers (master w)) |}).
Proof.
  intros Hok Hdead. eexists. split.
  - by apply (shutdown_run env false).
  - by rewrite wait_for_workers_drain.
Qed.

Lemma warm_shutdown_then_exit_witness :
  kills_succeed sample_env SIGTERM (workers (master sample_world)) /\
  (forall x, x ∈ workers (master sample_world) -> is_alive (dying_env (0 + 2)) x = false) /\
  exists w1,
    _handle_sigterm sample_env (VInt 15) VNone sample_world = (Ok tt, w1) /\
    _wait_for_workers dying_env 3 0 w1
    = Some (Ok tt, {| master := set_workers [] (set_shutdown_pending true
                                                  (master sample_world));
                      spawned := 3;
                      trace := [EKill 10 SIGTERM; EKill 11 SIGTERM; EKill 12 SIGTERM] |}).
Proof.
  assert (Hok : kills_succeed sample_env SIGTERM (workers (master sample_world))).
  { constructor; [reflexivity|]. constructor; [reflexivity|].
    constructor; [reflexivity|]. constructor. }
  assert (Hdead : forall x, x ∈ workers (master sample_world) ->
                            is_alive (dying_env (0 + 2)) x = false).
  { intros x Hx. cbn. apply bool_decide_eq_false.
    cbn in Hx. rewrite !elem_of_cons in Hx.
    destruct Hx as [-> | [-> | [-> | Hx%elem_of_nil]]]; cbn; [lia | lia | lia | done]. }
  split; [exact Hok|]. split; [exact Hdead|].
  exact (warm_shutdown_then_exit sample_env dying_env (VInt 15) VNone 0 2 sample_world
           Hok Hdead).
Defined.

Lemma resolved_queues_startup (env : Env) (now cpus : Z) (m : Master) :
  resolved_queues env (startup_master now cpus m) = resolved_queues env m.
Proof. unfold startup_master. by destruct (MAX_LOAD (config m)). Qed.

(** X14. [run] records the start time, sets [MAX_LOAD] to the number of
    processors when it was not set, and then: when the queues string does
    not parse, the ValueError leaves [run] before any worker is started;
    when it parses to no queue at all (and there is no worker yet), [run]
    returns after one pass of the loop without having started anything;
    and whenever [run] returns, the worker set is empty. *)
Theorem run_outcomes (env : Env) (now cpus : Z) (env_at : nat -> Env) (fuel : nat)
    (w : World) :
  let w0 := {| master := startup_master now cpus (master w);
               spawned := spawned w; trace := trace w |} in
  (forall e,
     parse_queues_str (platform env) (hostname env) (resolved_queues env (master w)) = Raise e ->
     run env now cpus env_at fuel w = Some (Raise e, w0)) /\
  (parse_queues_str (platform env) (hostname env) (resolved_queues env (master w)) = Ok [] ->
   workers (master w) = [] ->
   run env now cpus env_at (S fuel) w = Some (Ok tt, w0)) /\
  (forall w', run env now cpus env_at fuel w = Some (Ok tt, w') ->
     workers (master w') = []).
Proof.
  intros w0. unfold run. rewrite run_startup_run. fold w0.
  split; [|split].
  - intros e He. unfold _start_workers. unfold bind at 1. rewrite _get_queues_run.
    unfold bind, lift_result. cbn [master w0]. by rewrite resolved_queues_startup, He.
  - intros Hqs Hws. rewrite (_start_workers_run env []).
    + assert (Hw0 : workers (master w0) = []).
      { unfold w0, startup_master. cbn. by destruct (MAX_LOAD (config (master w))). }
      cbn [started_workers map length]. rewrite List.app_nil_r, set_workers_same.
      rewrite after_nothing, wait_for_workers_step.
      unfold monitor_tick, bind, get_master. by rewrite Hw0.
    + cbn [master w0]. by rewrite resolved_queues_startup.
  - intros w'. destruct (_start_workers env w0) as [[[]|e] w1]; [|done].
    apply wait_for_workers_returns_empty.
Qed.

Lemma run_outcomes_witness :
  (parse_queues_str sample_platform "h" "y*z" = Raise ValueError /\
   run sample_env 1700000000 8 dying_env 5 (overridden_world "y*z")
   = Some (Raise ValueError,
           {| master := startup_master 1700000000 8 (master (overridden_world "y*z"));
              spawned := 0; trace := [] |})) /\
  (parse_queues_str sample_platform "h" "0*z" = Ok [] /\ workers (master (overridden_world "0*z")) = [] /\
   run sample_env 1700000000 8 dying_env 1 (overridden_world "0*z")
   = Some (Ok tt,
           {| master := startup_master 1700000000 8 (master (overridden_world "0*z"));
              spawned := 0; trace := [] |})).
Proof.
  split.
  - split; [reflexivity|].
    exact (proj1 (run_outcomes sample_env 1700000000 8 dying_env 5 (overridden_world "y*z"))
                 ValueError eq_refl).
  - split; [reflexivity|]. split; [reflexivity|].
    exact (proj1 (proj2 (run_outcomes sample_env 1700000000 8 dying_env 0
                           (overridden_world "0*z"))) eq_refl eq_refl).
Defined.

(** X15. [_spawn_new_worker] for a worker that is not in the worker set:
    the replacement is started and appended first, and only then does
    [self.workers.remove(worker)] raise ValueError, so the set has grown by
    one worker. *)
Theorem spawn_for_absent_worker_grows_pool (env : Env) (x : Worker) (w : World) :
  let new := {| obj := spawned w; queue_name := queue_name x; pid := fork env (spawned w) |} in
  x ∉ workers (master w) ->
  x <> new ->
  _spawn_new_worker env x w
  = (Raise ValueError,
     {| master := set_workers (workers (master w) ++ [new]) (master w);
        spawned := S (spawned w);
        trace := trace w ++ [EStart new] |}).
Proof.
  intros new Hx Hne. unfold _spawn_new_worker.
  unfold bind at 1. rewrite start_worker_run. fold new.
  unfold bind at 1. unfold workers_append, modify_master. cbn [master after].
  unfold workers_remove, bind, get_master. cbn [master workers set_workers].
  rewrite list_remove_absent.
  - unfold raise, after. cbn. by rewrite Nat.add_1_r.
  - intros [Hin | Hin%list_elem_of_singleton]%elem_of_app; [done | congruence].
Qed.

Lemma spawn_for_absent_worker_grows_pool_witness :
  (worker_d ∉ workers (master sample_world)) /\
  worker_d <> {| obj := 3; queue_name := "emails"; pid := 103 |} /\
  _spawn_new_worker sample_env worker_d sample_world
  = (Raise ValueError,
     {| master := set_workers [worker_a; worker_b; worker_c;
                               {| obj := 3; queue_name := "emails"; pid := 103 |}]
                              (master sample_world);
        spawned := 4;
        trace := [EStart {| obj := 3; queue_name := "emails"; pid := 103 |}] |}).
Proof.
  assert (Hin : worker_d ∉ workers (master sample_world)).
  { cbn. rewrite !elem_of_cons, elem_of_nil. intros [H | [H | [H | []]]]; discriminate H. }
  assert (Hne : worker_d <> {| obj := 3; queue_name := "emails"; pid := 103 |})
    by discriminate.
  split; [exact Hin|]. split; [exact Hne|].
  exact (spawn_for_absent_worker_grows_pool sample_env worker_d sample_world Hin Hne).
Defined.

(** X16. A command of the manager that raises something else than
    socket.error ends the link: a "stop_workers" message, when [os.kill]
    fails on the first worker, leaves [_send_status] with that OSError, the
    other workers unsignalled; when no kill fails the workers get their
    SIGTERMs and the link goes on. *)
Theorem stop_workers_command (env : Env) (w : World) :
  (forall x rest errno,
     workers (master w) = x :: rest ->
     os_kill env (pid x) SIGTERM = Some errno ->
     link_iteration env true (Message "stop_workers" [] []) w
     = (Died (OSError errno),
        {| master := master w; spawned := spawned w;
           trace := trace w ++ [EKill (pid x) SIGTERM] |})) /\
  (kills_succeed env SIGTERM (workers (master w)) ->
   link_iteration env true (Message "stop_workers" [] []) w
   = (Connected,
      {| master := master w; spawned := spawned w;
         trace := trace w ++ kill_events SIGTERM (workers (master w)) |})).
Proof.
  assert (Hcall : link_exchange env true (Message "stop_workers" [] []) w
                  = stop_workers env None false w) by reflexivity.
  unfold link_iteration. rewrite Hcall. split.
  - intros x rest errno Hws Hx. unfold stop_workers, bind, get_master. rewrite Hws.
    rewrite (for_each_kill_fail env SIGTERM [] x rest errno); [|constructor|done].
    unfold after. cbn. by rewrite Nat.add_0_r.
  - intros Hok. rewrite (stop_workers_ok env None false w Hok).
    unfold after. by rewrite Nat.add_0_r.
Qed.

Lemma stop_workers_command_witness :
  (workers (master {| master := set_workers [worker_b; worker_c] (master sample_world);
                      spawned := 3; trace := [] |}) = [worker_b; worker_c] /\
   os_kill stale_env (pid worker_b) SIGTERM = Some 3 /\
   link_iteration stale_env true (Message "stop_workers" [] [])
     {| master := set_workers [worker_b; worker_c] (master sample_world);
        spawned := 3; trace := [] |}
   = (Died (OSError 3),
      {| master := set_workers [worker_b; worker_c] (master sample_world);
         spawned := 3; trace := [EKill 11 SIGTERM] |})) /\
  (kills_succeed sample_env SIGTERM (workers (master sample_world)) /\
   link_iteration sample_env true (Message "stop_workers" [] []) sample_world
   = (Connected,
      {| master := master sample_world; spawned := 3;
         trace := [EKill 10 SIGTERM; EKill 11 SIGTERM; EKill 12 SIGTERM] |})).
Proof.
  split.
  - split; [reflexivity|]. split; [reflexivity|].
    exact (proj1 (stop_workers_command stale_env
             {| master := set_workers [worker_b; worker_c] (master sample_world);
                spawned := 3; trace := [] |}) worker_b [worker_c] 3 eq_refl eq_refl).
  - assert (Hok : kills_succeed sample_env SIGTERM (workers (master sample_world))).
    { constructor; [reflexivity|]. constructor; [reflexivity|].
      constructor; [reflexivity|]. constructor. }
    split; [exact Hok|].
    exact (proj2 (stop_workers_command sample_env sample_world) Hok).
Defined.
